(** * The pull-request data visualizer: filtering, aggregation and diff rendering

    A shallow embedding of the scripts under [data_visualizer/scripts]
    ([utils.js], [dataLoader.js], [dataAnalyzer.js], [prList.js]) and the
    properties of the pipeline they implement.

    Conventions.
    - A JavaScript string is represented by the bytes of its UTF-8 encoding.
      The scripts only ever test for, split on and strip the ASCII characters
      [+], [-], [@], the space and the line feed, and an ASCII byte never
      occurs inside a multi-byte UTF-8 sequence, so these operations agree
      with their UTF-16 originals.
    - A JavaScript number that the scripts use as a count or a sum of counts
      is a [Z].
    - A property that may be missing from a parsed JSON object is an
      [option]; [None] is JavaScript's [undefined]. *)

From Stdlib Require Import ZArith Ascii String.
From stdpp Require Import gmap strings list sorting.

Local Open Scope string_scope.
Local Open Scope Z_scope.

(** ** Built-ins of the language and of the browser *)

Module Js.

Definition dquote : string := String (ascii_of_nat 34) EmptyString.
Definition LF : ascii := ascii_of_nat 10.

(** [s.startsWith(p)] *)
Fixpoint startsWith (s p : string) {struct p} : bool :=
  match p, s with
  | EmptyString, _ => true
  | String a p', String b s' => Ascii.eqb a b && startsWith s' p'
  | String _ _, EmptyString => false
  end.

(** [s.substring(n)] *)
Fixpoint substring (n : nat) (s : string) : string :=
  match n, s with
  | O, _ => s
  | S _, EmptyString => EmptyString
  | S n', String _ t => substring n' t
  end.

(** [s.split(sep)] for a one-character separator; the empty string splits
    into one empty piece. *)
Fixpoint split (sep : ascii) (s : string) : list string :=
  match s with
  | EmptyString => [EmptyString]
  | String c t =>
      if Ascii.eqb c sep then EmptyString :: split sep t
      else match split sep t with
           | [] => [String c EmptyString]
           | piece :: rest => String c piece :: rest
           end
  end.

(** [s.includes(sub)] *)
Fixpoint includes (s sub : string) : bool :=
  startsWith s sub ||
  match s with
  | EmptyString => false
  | String _ t => includes t sub
  end.

Definition lowerAscii (c : ascii) : ascii :=
  let n := nat_of_ascii c in
  if (Nat.leb 65 n && Nat.leb n 90)%bool then ascii_of_nat (n + 32) else c.

(** [s.toLowerCase()] on ASCII text (every byte below 128): the bytes of
    [A] to [Z] are mapped, every other byte is kept.  On other text the
    method also maps capital letters outside ASCII, which this function
    leaves as they are; properties that depend on the mapping are stated
    for ASCII text. *)
Fixpoint toLowerCase (s : string) : string :=
  match s with
  | EmptyString => EmptyString
  | String c t => String (lowerAscii c) (toLowerCase t)
  end.

(** Truthiness of a string-valued property: [undefined] and the empty
    string are falsy. *)
Definition truthy (v : option string) : bool :=
  match v with
  | None => false
  | Some s => negb (String.eqb s EmptyString)
  end.

(** [n || 0] for a numeric property. *)
Definition orZero (v : option Z) : Z := default 0 v.

End Js.

(** ** utils.js *)

Module Utils.

Import Js.

Definition c_amp : ascii := ascii_of_nat 38.
Definition c_lt : ascii := ascii_of_nat 60.
Definition c_gt : ascii := ascii_of_nat 62.
Definition c_C2 : ascii := ascii_of_nat 194.
Definition c_A0 : ascii := ascii_of_nat 160.

(** [escapeHtml]: the text is stored as the [textContent] of a fresh
    element and read back as its [innerHTML].  The HTML fragment
    serializer escapes, in a text node, the ampersand, the two angle
    brackets and the no-break space U+00A0 (bytes C2 A0). *)
Fixpoint escapeHtml (text : string) : string :=
  match text with
  | EmptyString => EmptyString
  | String c t =>
      if Ascii.eqb c c_amp then "&amp;" ++ escapeHtml t
      else if Ascii.eqb c c_lt then "&lt;" ++ escapeHtml t
      else if Ascii.eqb c c_gt then "&gt;" ++ escapeHtml t
      else if Ascii.eqb c c_C2 then
        match t with
        | String d t' =>
            if Ascii.eqb d c_A0 then "&nbsp;" ++ escapeHtml t'
            else String c (escapeHtml t)
        | EmptyString => String c EmptyString
        end
      else String c (escapeHtml t)
  end.

(** [getLanguageFromFilename]: the extension is what follows the last
    dot ([split('.').pop()]). *)
Definition getLanguageFromFilename (filename : option string) : string :=
  if negb (truthy filename) then "plaintext"
  else
    let extension := List.last (split "."%char (default EmptyString filename)) EmptyString in
    if String.eqb extension "py" then "python"
    else if String.eqb extension "js" then "javascript"
    else if (String.eqb extension "cpp" || String.eqb extension "cc"
             || String.eqb extension "h")%bool then "cpp"
    else "plaintext".

Section Formatter.

(** [hljs.highlight(code, {language, ignoreIllegals: true}).value], the
    syntax highlighter, an external collaborator. *)
Variable hljs_highlight : string -> string -> string.

(** The branch of lines 19-34: the style class and the text that is
    handed to the highlighter. *)
Definition classifyLine (line : string) : string * string :=
  if startsWith line "+" then ("diff-add", substring 1 line)
  else if startsWith line "-" then ("diff-remove", substring 1 line)
  else if (startsWith line "@@" || startsWith line "---"
           || startsWith line "+++")%bool then ("diff-meta", line)
  else (EmptyString, if startsWith line " " then substring 1 line else line).

(** Lines 36-38. *)
Definition highlight (language codeLine : string) : string :=
  if String.eqb language "plaintext" then codeLine
  else hljs_highlight codeLine language.

(** The template of line 40; [highlighted || '&nbsp;']. *)
Definition span (lineClass highlighted : string) : string :=
  "<span class=" ++ dquote ++ "diff-line " ++ lineClass ++ dquote ++ ">"
  ++ (if String.eqb highlighted EmptyString then "&nbsp;" else highlighted)
  ++ "</span>".

Definition renderLine (language line : string) : string :=
  let '(lineClass, codeLine) := classifyLine line in
  span lineClass (highlight language codeLine).

Definition formatAndHighlightPatch (patchContent : option string)
    (language : string) : string :=
  if negb (truthy patchContent) then "No patch content available"
  else
    let lines := split LF (escapeHtml (default EmptyString patchContent)) in
    fold_left (fun html line => html ++ renderLine language line) lines EmptyString.

End Formatter.

End Utils.


(** ** Auxiliary notions about text, used to state and prove the properties
    of the formatter *)

Module Text.

Import Js Utils.

(** Whether the character occurs in the string. *)
Fixpoint mentions (c : ascii) (s : string) : bool :=
  match s with
  | EmptyString => false
  | String d t => Ascii.eqb d c || mentions c t
  end.

(** What [escapeHtml] writes for one character that stands alone. *)
Definition escapeChar (c : ascii) : string :=
  if Ascii.eqb c c_amp then "&amp;"
  else if Ascii.eqb c c_lt then "&lt;"
  else if Ascii.eqb c c_gt then "&gt;"
  else String c EmptyString.

(** Whether [c] followed by [s] starts with the two bytes of U+00A0. *)
Definition isNbsp (c : ascii) (s : string) : bool :=
  Ascii.eqb c c_C2 && startsWith s (String c_A0 EmptyString).

(** What a loop writes that appends [f x] for each [x] of [l] in turn. *)
Definition concatMap {A : Type} (f : A -> string) (l : list A) : string :=
  foldr (fun x rest => f x ++ rest) EmptyString l.

(** [headCons u l] puts [u] in front of the first piece of [l]. *)
Definition headCons (u : string) (l : list string) : list string :=
  match l with
  | [] => [u]
  | piece :: rest => (u ++ piece) :: rest
  end.

End Text.

(** ** The records of an uploaded file *)

(** One modified file of a pull request. *)
Module FileChange.
Record t : Type := mk {
  filename : string;
  additions : option Z;
  deletions : option Z;
  changes : option Z;
  patch : option string
}.
End FileChange.

(** One pull request, as [JSON.parse] delivers it. *)
Record PR : Type := mkPR {
  repo : option string;
  number : option Z;
  created_at : option string;
  problem_statement : option string;
  patch : option (list FileChange.t);
  test_patch : option (list FileChange.t);
  FAIL_TO_PASS : option string;
  base_commit : option string;
  version : option string;
  instance_id : option string
}.

(** What [JSON.parse] returns for a file of the expected shape. *)
Inductive Json : Type :=
  | JObject (pr : PR)
  | JArray (prs : list PR).

(** An uploaded file, by the outcome of [JSON.parse] on its text:
    [Malformed] when the parser throws. *)
Inductive File : Type :=
  | Malformed
  | Parsed (data : Json).

(** ** The record store and the page *)

(** The two module-level variables [prData] and [filteredPrData] of
    [dataLoader.js] hold references to arrays; [heap] is the memory the
    arrays live in, and a reference is an index into it.  An array that
    nothing refers to any more stays where it is. *)
Record Store : Type := mkStore {
  heap : list (list PR);
  prData : nat;
  filteredPrData : nat
}.

(** The four counters of [updateStats]. *)
Record Stats : Type := mkStats {
  totalPRs : Z;
  failToPassPRs : Z;
  totalRepos : Z;
  failToPassRepos : Z
}.

(** What the scripts have put on the page: the counters, the data of the
    two histograms (labels and values, in the order of [Object.keys]), the
    cards of the list in display order with its count label, the error
    notifications shown so far, and the two display flags. *)
Record Page : Type := mkPage {
  stats : Stats;
  fileDistChart : list (string * Z);
  changesChart : list (string * Z);
  prList : list PR;
  prCount : Z;
  errorMessages : list string;
  loading : bool;
  analysisResults : bool
}.

Record World : Type := mkWorld {
  store : Store;
  page : Page
}.

(** The values [applyFilters] reads from the filter controls. *)
Record FilterInputs : Type := mkInputs {
  prFilter : string;
  selectedRepos : list string;
  startDate : string;
  endDate : string;
  failToPassFilter : bool
}.

(** ** Arrays and objects *)

Module Arr.

(** [new Set(xs).size] *)
Definition setSize `{Countable A} (xs : list A) : Z :=
  Z.of_nat (size (list_to_set xs : gset A)).

Section Sort.
Context {A : Type}.

(** The comparator's result; [None] is NaN. *)
Variable comparefn : A -> A -> option Z.

(** The SortCompare of [Array.prototype.sort]: a NaN result counts
    as +0. *)
Definition sortCompare (x y : A) : Z := default 0 (comparefn x y).

Fixpoint insert (x : A) (l : list A) : list A :=
  match l with
  | [] => [x]
  | y :: r => if sortCompare x y <=? 0 then x :: y :: r else y :: insert x r
  end.

(** [xs.sort(comparefn)] for a consistent comparator: the sort is
    stable, which fixes the result, computed here by insertion from the
    right.  For a comparator that is not consistent (one that yields NaN
    on some pairs only) the language leaves the order to the engine: the
    result is then a rearrangement of [xs], and the general properties
    below state an order only where the comparator is consistent.  An
    array in which no element compares greater than its successor is
    one ascending run, which V8's merge sort returns as it is, as the
    insertion does. *)
Definition sort (xs : list A) : list A := foldr insert [] xs.
End Sort.

(** A plain object used as a table of counters, in insertion order. *)
Fixpoint get (k : string) (o : list (string * Z)) : option Z :=
  match o with
  | [] => None
  | (k', v) :: r => if String.eqb k' k then Some v else get k r
  end.

Fixpoint set (k : string) (v : Z) (o : list (string * Z)) : list (string * Z) :=
  match o with
  | [] => [(k, v)]
  | (k', v') :: r => if String.eqb k' k then (k', v) :: r else (k', v') :: set k v r
  end.

(** [Object.values(o)] and their sum. *)
Definition values (o : list (string * Z)) : list Z := o.*2.
Definition total (o : list (string * Z)) : Z := foldr Z.add 0 (values o).

End Arr.

(** ** dataAnalyzer.js, dataLoader.js and prList.js *)

Module Dashboard.

Import Js.

(** *** Reading and writing the store *)

Definition read (s : Store) (r : nat) : list PR := default [] (heap s !! r).

(** [getPrData()] and [getFilteredPrData()], dereferenced. *)
Definition getPrData (s : Store) : list PR := read s (prData s).
Definition getFilteredPrData (s : Store) : list PR := read s (filteredPrData s).

(** A new array ([results.flat()], [[...prData]], [xs.filter(f)]). *)
Definition alloc (xs : list PR) (s : Store) : nat * Store :=
  (length (heap s), mkStore (heap s ++ [xs]) (prData s) (filteredPrData s)).

Definition setPrData (r : nat) (s : Store) : Store :=
  mkStore (heap s) r (filteredPrData s).

Definition setFilteredPrData (r : nat) (s : Store) : Store :=
  mkStore (heap s) (prData s) r.

(** An in-place update of the array behind a reference. *)
Definition write (r : nat) (xs : list PR) (s : Store) : Store :=
  mkStore (<[r := xs]> (heap s)) (prData s) (filteredPrData s).

Definition withStats (st : Stats) (p : Page) : Page :=
  mkPage st (fileDistChart p) (changesChart p) (prList p) (prCount p)
         (errorMessages p) (loading p) (analysisResults p).

Definition withFileDistChart (d : list (string * Z)) (p : Page) : Page :=
  mkPage (stats p) d (changesChart p) (prList p) (prCount p)
         (errorMessages p) (loading p) (analysisResults p).

Definition withChangesChart (d : list (string * Z)) (p : Page) : Page :=
  mkPage (stats p) (fileDistChart p) d (prList p) (prCount p)
         (errorMessages p) (loading p) (analysisResults p).

Definition withPrList (l : list PR) (p : Page) : Page :=
  mkPage (stats p) (fileDistChart p) (changesChart p) l (Z.of_nat (length l))
         (errorMessages p) (loading p) (analysisResults p).

Definition withError (msg : string) (p : Page) : Page :=
  mkPage (stats p) (fileDistChart p) (changesChart p) (prList p) (prCount p)
         (errorMessages p ++ [msg]) (loading p) (analysisResults p).

Definition withLoading (b : bool) (p : Page) : Page :=
  mkPage (stats p) (fileDistChart p) (changesChart p) (prList p) (prCount p)
         (errorMessages p) b (analysisResults p).

Definition withAnalysisResults (b : bool) (p : Page) : Page :=
  mkPage (stats p) (fileDistChart p) (changesChart p) (prList p) (prCount p)
         (errorMessages p) (loading p) b.

(** *** dataAnalyzer.js *)

(** [pr => pr.FAIL_TO_PASS] as a filter predicate. *)
Definition isFailToPass (pr : PR) : bool := truthy (FAIL_TO_PASS pr).

Definition computeStats (prs : list PR) : Stats :=
  let failToPassPRsData := List.filter isFailToPass prs in
  {| totalPRs := Z.of_nat (length prs);
     failToPassPRs := Z.of_nat (length failToPassPRsData);
     totalRepos := Arr.setSize (map repo prs);
     failToPassRepos := Arr.setSize (map repo failToPassPRsData) |}.

Definition updateStats (w : World) : World :=
  mkWorld (store w) (withStats (computeStats (getPrData (store w))) (page w)).

(** [pr.patch?.length || 0] *)
Definition fileCount (pr : PR) : Z :=
  match patch pr with
  | None => 0
  | Some files => Z.of_nat (length files)
  end.

(** [pr.patch?.reduce((sum, file) => sum + (file.changes || 0), 0) || 0] *)
Definition changeCount (pr : PR) : Z :=
  match patch pr with
  | None => 0
  | Some files =>
      fold_left (fun sum file => sum + orZero (FileChange.changes file)) files 0
  end.

Definition fileRange (count : Z) : string :=
  if count <=? 2 then "1-2" else if count <=? 5 then "3-5"
  else if count <=? 10 then "6-10" else "10+".

Definition changeRange (change : Z) : string :=
  if change <=? 10 then "1-10" else if change <=? 50 then "11-50"
  else if change <=? 100 then "51-100" else "100+".

(** [distribution[range] = (distribution[range] || 0) + 1] *)
Definition increment (range : string) (distribution : list (string * Z))
    : list (string * Z) :=
  Arr.set range (orZero (Arr.get range distribution) + 1) distribution.

(** The distribution that [createFileDistChart] hands to the chart. *)
Definition fileDistribution (prs : list PR) : list (string * Z) :=
  let filesCounts := map fileCount prs in
  fold_left (fun distribution count => increment (fileRange count) distribution)
            filesCounts [("1-2", 0); ("3-5", 0); ("6-10", 0); ("10+", 0)].

(** The distribution that [createChangesChart] hands to the chart. *)
Definition changesDistribution (prs : list PR) : list (string * Z) :=
  let changes := map changeCount prs in
  fold_left (fun distribution change => increment (changeRange change) distribution)
            changes [("1-10", 0); ("11-50", 0); ("51-100", 0); ("100+", 0)].

Definition createFileDistChart (prs : list PR) (w : World) : World :=
  mkWorld (store w) (withFileDistChart (fileDistribution prs) (page w)).

Definition createChangesChart (prs : list PR) (w : World) : World :=
  mkWorld (store w) (withChangesChart (changesDistribution prs) (page w)).

(** [createCharts]; the repository bars and the monthly timeline only
    draw, and are left out. *)
Definition createCharts (w : World) : World :=
  let failToPassPrs := List.filter isFailToPass (getPrData (store w)) in
  createChangesChart failToPassPrs (createFileDistChart failToPassPrs w).

Section Dates.

(** [new Date(s).getTime()] for a string; [None] is the time value NaN
    of an Invalid Date. *)
Variable Date_parse : string -> option Z.

(** [d.setHours(h, m, s, ms)] on a valid date, in the time zone of the
    browser. *)
Variable Date_setHours : Z -> Z -> Z -> Z -> Z -> Z.

(** [new Date(v)]; [new Date(undefined)] is an Invalid Date. *)
Definition newDate (v : option string) : option Z := v ≫= Date_parse.

Definition setHours (h m s ms : Z) (d : option Z) : option Z :=
  Date_setHours h m s ms <$> d.

(** [a < b], [a > b] and [a - b] on dates: a comparison with NaN is
    false, a difference with NaN is NaN. *)
Definition dateLt (a b : option Z) : bool :=
  match a, b with Some x, Some y => x <? y | _, _ => false end.
Definition dateGt (a b : option Z) : bool := dateLt b a.
Definition dateSub (a b : option Z) : option Z :=
  match a, b with Some x, Some y => Some (x - y) | _, _ => None end.

(** *** prList.js *)

(** [(a, b) => new Date(b.created_at) - new Date(a.created_at)] *)
Definition byCreatedAtDesc (a b : PR) : option Z :=
  dateSub (newDate (created_at b)) (newDate (created_at a)).

(** [generatePRList]: [sort] reorders the array it is called on and
    returns that same array. *)
Definition generatePRList (w : World) : World :=
  let r := filteredPrData (store w) in
  let sortedPRs := Arr.sort byCreatedAtDesc (read (store w) r) in
  mkWorld (write r sortedPRs (store w)) (withPrList sortedPRs (page w)).

(** *** dataAnalyzer.js, the entry point *)

(** [analyzeData]; [populateRepoFilter] only builds the check boxes. *)
Definition analyzeData (w : World) : World :=
  if (length (getPrData (store w)) =? 0)%nat then w
  else generatePRList (createCharts (updateStats w)).

(** *** dataLoader.js *)

(** The promise of one file: [Array.isArray(data) ? data : [data]], or a
    rejection. *)
Definition readFile (f : File) : option (list PR) :=
  match f with
  | Malformed => None
  | Parsed (JArray prs) => Some prs
  | Parsed (JObject pr) => Some [pr]
  end.

(** [Promise.all]: the results in the order of the promises, or a
    rejection as soon as one of them rejects. *)
Definition promiseAll {A : Type} (ps : list (option A)) : option (list A) :=
  mapM id ps.

Definition loadFiles (files : list File) (w : World) : World :=
  if (length files =? 0)%nat then w
  else
    let w := mkWorld (store w) (withAnalysisResults false (withLoading true (page w))) in
    match promiseAll (map readFile files) with
    | Some results =>
        let '(r, s) := alloc (concat results) (store w) in
        let s := setPrData r s in
        let '(r', s) := alloc (getPrData s) s in
        let s := setFilteredPrData r' s in
        let w := analyzeData (mkWorld s (page w)) in
        mkWorld (store w) (withAnalysisResults true (withLoading false (page w)))
    | None =>
        mkWorld (store w)
          (withLoading false
             (withError "File format error, please ensure uploading valid JSON files"
                        (page w)))
    end.

(** The four conditions of the filter callback (lines 71-91);
    [matchesTitle] is [undefined] when the record has no
    [problem_statement]. *)
Definition matchesTitle (prQuery : string) (pr : PR) : option bool :=
  (fun text => includes (toLowerCase text) prQuery) <$> problem_statement pr.

Definition matchesRepo (selected : list string) (pr : PR) : bool :=
  (length selected =? 0)%nat
  || match toLowerCase <$> repo pr with
     | None => false
     | Some name => bool_decide (name ∈ selected)
     end.

Definition matchesFailToPass (failToPassChecked : bool) (pr : PR) : bool :=
  negb failToPassChecked || isFailToPass pr.

Definition matchesDate (startDate endDate : string) (pr : PR) : bool :=
  let matchesDate := true in
  let matchesDate :=
    if truthy (Some startDate) then
      let prDate := newDate (created_at pr) in
      let start := setHours 0 0 0 0 (newDate (Some startDate)) in
      if dateLt prDate start then false else matchesDate
    else matchesDate in
  if truthy (Some endDate) then
    let prDate := newDate (created_at pr) in
    let end_ := setHours 23 59 59 999 (newDate (Some endDate)) in
    if dateGt prDate end_ then false else matchesDate
  else matchesDate.

(** The callback of [filter]: the value of
    [matchesTitle && matchesRepo && matchesDate && matchesFailToPass]
    as a truth value, [undefined] being falsy. *)
Definition keeps (inputs : FilterInputs) (pr : PR) : bool :=
  let prQuery := toLowerCase (prFilter inputs) in
  default false (matchesTitle prQuery pr)
  && matchesRepo (selectedRepos inputs) pr
  && matchesDate (startDate inputs) (endDate inputs) pr
  && matchesFailToPass (failToPassFilter inputs) pr.

(** The constant [filtered] of [applyFilters]. *)
Definition filtered (inputs : FilterInputs) (prs : list PR) : list PR :=
  List.filter (keeps inputs) prs.

(** [applyFilters]; [updateSelectedReposDisplay] only redraws the
    selection tags. *)
Definition applyFilters (inputs : FilterInputs) (w : World) : World :=
  let '(r, s) := alloc (filtered inputs (getPrData (store w))) (store w) in
  generatePRList (mkWorld (setFilteredPrData r s) (page w)).

(** *** The states the page can be in *)

(** At start both variables hold an empty array of their own.  The
    page itself is not part of the scripts: its counters are taken to
    read zero and its charts and list to be empty. *)
Definition initial : World :=
  {| store := {| heap := [[]; []]; prData := 0%nat; filteredPrData := 1%nat |};
     page := {| stats := mkStats 0 0 0 0;
                fileDistChart := []; changesChart := [];
                prList := []; prCount := 0; errorMessages := [];
                loading := false; analysisResults := false |} |}.

Inductive reachable : World -> Prop :=
  | reach_initial : reachable initial
  | reach_loadFiles files w :
      reachable w -> reachable (loadFiles files w)
  | reach_applyFilters inputs w :
      reachable w -> reachable (applyFilters inputs w).

(** The record has a [created_at] that parses to a date. *)
Definition validDate (pr : PR) : Prop := is_Some (newDate (created_at pr)).

(** [a] was created at or after the time [b] was. *)
Definition descending (a b : PR) : Prop :=
  exists x y,
    newDate (created_at a) = Some x /\ newDate (created_at b) = Some y /\ y <= x.

End Dates.

(** The two variables refer to two different arrays of the heap. *)
Definition separate (s : Store) : Prop :=
  (prData s < length (heap s))%nat
  /\ (filteredPrData s < length (heap s))%nat
  /\ prData s <> filteredPrData s.

End Dashboard.

(** ** Sample data *)

Module Sample.

(** A stand-in for the highlighter that marks what it was given. *)
Definition tagging (code language : string) : string :=
  "<i>" ++ code ++ "</i>".

(** The date parser on the three strings used below; a date without a
    time is midnight UTC. *)
Definition utcParse (s : string) : option Z :=
  if String.eqb s "2024-03-15T00:00:00Z" then Some 1710460800000
  else if String.eqb s "2024-03-15" then Some 1710460800000
  else if String.eqb s "2024-01-01T00:00:00Z" then Some 1704067200000
  else None.

(** [setHours] in a browser whose time zone is UTC. *)
Definition utcSetHours (h m s ms t : Z) : Z :=
  t - t mod 86400000 + ((h * 60 + m) * 60 + s) * 1000 + ms.

(** The object [{}]. *)
Definition bare : PR :=
  {| repo := None; number := None; created_at := None; problem_statement := None;
     patch := None; test_patch := None; FAIL_TO_PASS := None; base_commit := None;
     version := None; instance_id := None |}.

(** The object [{repo: 'a/b', FAIL_TO_PASS: 't1'}]. *)
Definition single : PR :=
  {| repo := Some "a/b"; number := None; created_at := None;
     problem_statement := None; patch := None; test_patch := None;
     FAIL_TO_PASS := Some "t1"; base_commit := None; version := None;
     instance_id := None |}.

(** The object [{FAIL_TO_PASS: 't2'}]. *)
Definition flagged : PR :=
  {| repo := None; number := None; created_at := None; problem_statement := None;
     patch := None; test_patch := None; FAIL_TO_PASS := Some "t2";
     base_commit := None; version := None; instance_id := None |}.

(** A record with a number and a repository but no [problem_statement]. *)
Definition untitled : PR :=
  {| repo := Some "a/b"; number := Some 7; created_at := Some "2024-03-15T00:00:00Z";
     problem_statement := None; patch := Some []; test_patch := None;
     FAIL_TO_PASS := Some "t1"; base_commit := None; version := None;
     instance_id := None |}.

(** A record without [created_at]. *)
Definition undated : PR :=
  {| repo := Some "a/b"; number := Some 7; created_at := None;
     problem_statement := Some "Crash on start"; patch := None;
     test_patch := None; FAIL_TO_PASS := None; base_commit := None;
     version := None; instance_id := None |}.

(** Two records created in January and in March. *)
Definition january : PR :=
  {| repo := Some "a/b"; number := Some 1; created_at := Some "2024-01-01T00:00:00Z";
     problem_statement := Some "First"; patch := Some []; test_patch := None;
     FAIL_TO_PASS := None; base_commit := None; version := None;
     instance_id := None |}.

Definition march : PR :=
  {| repo := Some "a/b"; number := Some 2; created_at := Some "2024-03-15T00:00:00Z";
     problem_statement := Some "Second"; patch := Some []; test_patch := None;
     FAIL_TO_PASS := None; base_commit := None; version := None;
     instance_id := None |}.

(** A record of a repository whose name has capital letters. *)
Definition cased : PR :=
  {| repo := Some "Org/App"; number := Some 3;
     created_at := Some "2024-03-15T00:00:00Z";
     problem_statement := Some "Third"; patch := Some []; test_patch := None;
     FAIL_TO_PASS := None; base_commit := None; version := None;
     instance_id := None |}.

(** All filter controls empty. *)
Definition noFilter : FilterInputs :=
  {| prFilter := EmptyString; selectedRepos := []; startDate := EmptyString;
     endDate := EmptyString; failToPassFilter := false |}.

(** Both date bounds set to the fifteenth of March. *)
Definition oneDay : FilterInputs :=
  {| prFilter := EmptyString; selectedRepos := []; startDate := "2024-03-15";
     endDate := "2024-03-15"; failToPassFilter := false |}.

(** The page after loading one file with the array of the two. *)
Definition loaded : World :=
  Dashboard.loadFiles utcParse [Parsed (JArray [january; march])] Dashboard.initial.

(** The page after loading January, a record without a date, and March. *)
Definition mixed : World :=
  Dashboard.loadFiles utcParse [Parsed (JArray [january; undated; march])]
                      Dashboard.initial.

End Sample.

(** ** Further parts of the scripts *)

From Stdlib Require DecimalString.

(** More built-ins. *)
Module JsMore.

(** The number of elements that satisfy a test
    ([xs.filter(test).length]). *)
Definition count {A : Type} (test : A -> bool) (xs : list A) : Z :=
  Z.of_nat (length (List.filter test xs)).

(** [String(n)] for an integer. *)
Definition numberToString (n : Z) : string :=
  DecimalString.NilZero.string_of_int (Z.to_int n).

(** [xs.findIndex(test)]: the first position whose element passes, or -1. *)
Fixpoint findIndex {A : Type} (test : A -> bool) (xs : list A) : Z :=
  match xs with
  | [] => -1
  | x :: rest =>
      if test x then 0
      else let i := findIndex test rest in if i =? -1 then -1 else i + 1
  end.

(** [xs[i]] for a number [i]: [undefined] outside the array. *)
Definition at_ {A : Type} (xs : list A) (i : Z) : option A :=
  if i <? 0 then None else xs !! Z.to_nat i.

(** [s.split(sep).pop()] *)
Definition lastPiece (sep : ascii) (s : string) : string :=
  List.last (Js.split sep s) EmptyString.

(** [v || d] for a string-valued property. *)
Definition orString (v : option string) (d : string) : string :=
  if Js.truthy v then default d v else d.

(** The comparator [sort()] uses when it is given none, on strings: the
    order of their code units, which is the order of the bytes for text
    of the Basic Multilingual Plane below U+E000. *)
Definition compareStrings (a b : string) : option Z :=
  Some match String.compare a b with Lt => -1 | Eq => 0 | Gt => 1 end.

(** [Array.from(new Set(xs))]: the distinct elements, each at its first
    occurrence. *)
Definition distinct `{EqDecision A} (xs : list A) : list A :=
  fold_left (fun (seen : list A) x => if decide (x ∈ seen) then seen else (seen ++ [x])%list)
            xs [].

End JsMore.

(** ** ASCII text and the case of its letters *)

Module Letters.

(** The byte is an ASCII character: in UTF-8 these bytes are the
    characters U+0000 to U+007F, one byte each. *)
Definition isAsciiChar (c : ascii) : bool := Nat.ltb (nat_of_ascii c) 128.

Fixpoint isAscii (s : string) : bool :=
  match s with
  | EmptyString => true
  | String c t => isAsciiChar c && isAscii t
  end.

(** An optional property is ASCII when it is absent or its text is. *)
Definition isAsciiOpt (v : option string) : bool := from_option isAscii true v.

(** The capital letters [A] to [Z]. *)
Definition isUpper (c : ascii) : bool :=
  Nat.leb 65 (nat_of_ascii c) && Nat.leb (nat_of_ascii c) 90.

Fixpoint hasUpper (s : string) : bool :=
  match s with
  | EmptyString => false
  | String c t => isUpper c || hasUpper t
  end.

(** [d] is the small letter of the capital letter [c]. *)
Definition smallOf (c d : ascii) : bool :=
  isUpper c && Nat.eqb (nat_of_ascii d) (nat_of_ascii c + 32).

(** The same character, or one letter in its two cases. *)
Definition sameLetter (c d : ascii) : bool :=
  Ascii.eqb c d || smallOf c d || smallOf d c.

(** Two texts that differ at most in the case of their letters. *)
Fixpoint sameUpToCase (a b : string) : bool :=
  match a, b with
  | EmptyString, EmptyString => true
  | String c a', String d b' => sameLetter c d && sameUpToCase a' b'
  | _, _ => false
  end.

End Letters.

(** The records a file contributes to a load that resolves. *)
Definition fileRecords (f : File) : list PR :=
  match f with
  | Malformed => []
  | Parsed (JArray prs) => prs
  | Parsed (JObject pr) => [pr]
  end.

#[global] Instance FileChange_eq_dec : EqDecision FileChange.t.
Proof. solve_decision. Defined.

#[global] Instance PR_eq_dec : EqDecision PR.
Proof. solve_decision. Defined.

(** ** utils.js: the diff view *)

Module DiffView.

Import Js JsMore Utils.

(** One [diff-container]: the values the template interpolates, and the
    font size set on its [diff-content] ([None] until a script sets it). *)
Record Container : Type := mkContainer {
  header : string;
  added : Z;
  deleted : Z;
  changed : Z;
  content : string;
  fontSize : option Z
}.

(** What [generateDiffView] returns: the [No changes] paragraph, or the
    containers joined. *)
Inductive View : Type :=
  | NoChanges
  | Containers (cs : list Container).

Section Formatter.

Variable hljs_highlight : string -> string -> string.

Definition container (file : FileChange.t) : Container :=
  let language := getLanguageFromFilename (Some (FileChange.filename file)) in
  {| header := FileChange.filename file;
     added := orZero (FileChange.additions file);
     deleted := orZero (FileChange.deletions file);
     changed := orZero (FileChange.changes file);
     content := formatAndHighlightPatch hljs_highlight
                  (Some (orString (FileChange.patch file) "No patch content available"))
                  language;
     fontSize := None |}.

(** [generateDiffView]; [patches] is [None] for [undefined]. *)
Definition generateDiffView (patches : option (list FileChange.t)) : View :=
  match patches with
  | None => NoChanges
  | Some [] => NoChanges
  | Some files => Containers (map container files)
  end.

End Formatter.

Definition containers (v : View) : list Container :=
  match v with
  | NoChanges => []
  | Containers cs => cs
  end.

End DiffView.

(** ** dataLoader.js: the detail modal *)

Module Detail.

Import Js JsMore Dashboard DiffView.

(** The body of the modal: the title, the rendered description, the four
    tiles, the two diff views and the test results.  The metadata block,
    which only prints fields of the record, is left out. *)
Record Body : Type := mkBody {
  modalTitle : string;
  description : string;
  filesTile : Z;
  changesTile : Z;
  additionsTile : Z;
  deletionsTile : Z;
  codeChanges : View;
  testChanges : option View;
  testResults : option string
}.

(** The modal, with the module-level variable [currentFontSize]. *)
Record Modal : Type := mkModal {
  shown : bool;
  body : option Body;
  currentFontSize : Z
}.

(** [pr.patch?.reduce((sum, file) => sum + (file.additions || 0), 0) || 0]
    and the same for the deletions. *)
Definition additionCount (pr : PR) : Z :=
  match patch pr with
  | None => 0
  | Some files =>
      fold_left (fun sum file => sum + orZero (FileChange.additions file)) files 0
  end.

Definition deletionCount (pr : PR) : Z :=
  match patch pr with
  | None => 0
  | Some files =>
      fold_left (fun sum file => sum + orZero (FileChange.deletions file)) files 0
  end.

(** [pr.number || 'N/A'], printed. *)
Definition numberOrNA (pr : PR) : string :=
  match number pr with
  | None => "N/A"
  | Some n => if n =? 0 then "N/A" else numberToString n
  end.

Definition setViewFontSize (size : Z) (v : View) : View :=
  match v with
  | NoChanges => NoChanges
  | Containers cs =>
      Containers (map (fun c => mkContainer (header c) (added c) (deleted c) (changed c)
                                            (content c) (Some size)) cs)
  end.

(** [updateFontSize]: every [diff-content] of the modal body gets the
    current size. *)
Definition updateFontSize (m : Modal) : Modal :=
  let size := currentFontSize m in
  mkModal (shown m)
    ((fun b => mkBody (modalTitle b) (description b) (filesTile b) (changesTile b)
                      (additionsTile b) (deletionsTile b)
                      (setViewFontSize size (codeChanges b))
                      (setViewFontSize size <$> testChanges b)
                      (testResults b)) <$> body m)
    size.

Definition increaseFontSize (m : Modal) : Modal :=
  if currentFontSize m <? 24
  then updateFontSize (mkModal (shown m) (body m) (currentFontSize m + 1))
  else m.

Definition decreaseFontSize (m : Modal) : Modal :=
  if 10 <? currentFontSize m
  then updateFontSize (mkModal (shown m) (body m) (currentFontSize m - 1))
  else m.

Definition closePRModal (m : Modal) : Modal :=
  mkModal false (body m) (currentFontSize m).

Section Renderers.

(** [marked.parse], the markdown renderer, and the syntax highlighter. *)
Variable marked_parse : string -> string.
Variable hljs_highlight : string -> string -> string.

Definition renderBody (pr : PR) : Body :=
  {| modalTitle := "PR #" ++ numberOrNA pr ++ " - " ++ orString (repo pr) "Unknown";
     description := if truthy (problem_statement pr)
                    then marked_parse (default EmptyString (problem_statement pr))
                    else "No description";
     filesTile := fileCount pr;
     changesTile := changeCount pr;
     additionsTile := additionCount pr;
     deletionsTile := deletionCount pr;
     codeChanges := generateDiffView hljs_highlight (Some (default [] (patch pr)));
     testChanges :=
       match test_patch pr with
       | Some (file :: files) =>
           Some (generateDiffView hljs_highlight (Some (file :: files)))
       | _ => None
       end;
     testResults :=
       match test_patch pr with
       | Some (_ :: _) => if truthy (FAIL_TO_PASS pr) then FAIL_TO_PASS pr else None
       | _ => None
       end |}.

(** [openPRDetail(index)] on the dataset [prs]: [None] when [prs[index]] is
    [undefined], in which case reading [pr.number] throws before anything
    is written. *)
Definition openPRDetail (index : Z) (prs : list PR) (m : Modal) : option Modal :=
  match at_ prs index with
  | None => None
  | Some pr => Some (updateFontSize (mkModal true (Some (renderBody pr)) 14))
  end.

(** The modal before any record is opened. *)
Definition closed : Modal := {| shown := false; body := None; currentFontSize := 14 |}.

(** What a user can do with the modal. *)
Inductive step : Modal -> Modal -> Prop :=
  | step_open index prs m m' : openPRDetail index prs m = Some m' -> step m m'
  | step_close m : step m (closePRModal m)
  | step_increase m : step m (increaseFontSize m)
  | step_decrease m : step m (decreaseFontSize m).

Inductive reachable : Modal -> Prop :=
  | reach_closed : reachable closed
  | reach_step m m' : reachable m -> step m m' -> reachable m'.

End Renderers.

(** The font sizes of the diff contents in the modal body. *)
Definition fontSizes (m : Modal) : list (option Z) :=
  match body m with
  | None => []
  | Some b =>
      (map fontSize (containers (codeChanges b))
       ++ map fontSize (default [] (containers <$> testChanges b)))%list
  end.

(** The size in [currentFontSize] is in range and is the size of every
    diff shown. *)
Definition inSync (m : Modal) : Prop :=
  10 <= currentFontSize m <= 24
  /\ Forall (fun s => s = Some (currentFontSize m)) (fontSizes m).

End Detail.

(** ** prList.js: the cards *)

Module Cards.

Import Js JsMore Dashboard Detail.

(** The constants that the callback of [generatePRList] computes for one
    card (lines 10-24). *)
Record Card : Type := mkCard {
  cardFileCount : Z;
  cardTestFileCount : Z;
  cardChangeCount : Z;
  cardAdditions : Z;
  cardDeletions : Z;
  cardFailToPass : option string;
  mainFiles : list string;
  moreFiles : string;
  originalIndex : Z
}.

(** The callback.  [item === pr] compares references; records are values
    here, and the two agree on the position found when no two records of
    the dataset are equal in every field. *)
Definition card (prs : list PR) (pr : PR) : Card :=
  let fileCount := fileCount pr in
  {| cardFileCount := fileCount;
     cardTestFileCount :=
       match test_patch pr with None => 0 | Some files => Z.of_nat (length files) end;
     cardChangeCount := changeCount pr;
     cardAdditions := additionCount pr;
     cardDeletions := deletionCount pr;
     cardFailToPass := FAIL_TO_PASS pr;
     mainFiles :=
       match patch pr with
       | None => []
       | Some files =>
           map (fun file => lastPiece "/" (FileChange.filename file)) (take 3 files)
       end;
     moreFiles := if 3 <? fileCount
                  then " +" ++ numberToString (fileCount - 3) ++ " more"
                  else EmptyString;
     originalIndex := findIndex (fun item => bool_decide (item = pr)) prs |}.

(** The cards that [generatePRList] writes, in display order. *)
Definition cards (Date_parse : string -> option Z) (w : World) : list Card :=
  let sortedPRs := Arr.sort (byCreatedAtDesc Date_parse) (getFilteredPrData (store w)) in
  map (card (getPrData (store w))) sortedPRs.

End Cards.

(** ** dataLoader.js: the repository check boxes *)

Module RepoFilter.

Import Js JsMore Dashboard.

(** One check box: its value and the text of its label. *)
Record Checkbox : Type := mkCheckbox {
  value : string;
  label : string
}.

(** [populateRepoFilter]: one check box per distinct truthy [repo], in
    sorted order. *)
Definition populateRepoFilter (prs : list PR) : list Checkbox :=
  let repos :=
    distinct (omap (fun pr => if truthy (repo pr) then repo pr else None) prs) in
  let sortedRepos := Arr.sort compareStrings repos in
  map (fun repo => {| value := toLowerCase repo; label := " " ++ repo |}) sortedRepos.

End RepoFilter.

(** ** dataAnalyzer.js: the monthly timeline *)

Module Timeline.

Import Js JsMore Dashboard.

(** [s.padStart(n, fill)] for a one-character filler. *)
Definition padStart (n : nat) (fill : ascii) (s : string) : string :=
  String.concat EmptyString
    (replicate (n - String.length s) (String fill EmptyString)) ++ s.

(** A number in a template or under [String(...)]; [None] is NaN. *)
Definition showNumber (v : option Z) : string :=
  match v with
  | None => "NaN"
  | Some n => numberToString n
  end.

Section Dates.

Variable Date_parse : string -> option Z.

(** [d.getFullYear()] and [d.getMonth()] on a valid date, in the time zone
    of the browser; on an Invalid Date both are NaN. *)
Variable Date_getFullYear : Z -> Z.
Variable Date_getMonth : Z -> Z.

(** The key of lines 224-225. *)
Definition monthKey (created_at : option string) : string :=
  let date := newDate Date_parse created_at in
  showNumber (Date_getFullYear <$> date)
  ++ "-" ++ padStart 2 "0" (showNumber ((fun t => Date_getMonth t + 1) <$> date)).

(** The object [timeline] after the loop. *)
Definition timeline (prs : list PR) : list (string * Z) :=
  fold_left
    (fun timeline pr =>
       if truthy (created_at pr)
       then increment (monthKey (created_at pr)) timeline
       else timeline)
    prs [].

(** An entry as [sort()] sees it: [String([key, count])]. *)
Definition entryString (entry : string * Z) : string :=
  entry.1 ++ "," ++ numberToString entry.2.

(** [Object.entries(timeline).sort()]: the labels and the data of the
    chart. *)
Definition sortedTimeline (prs : list PR) : list (string * Z) :=
  Arr.sort (fun a b => compareStrings (entryString a) (entryString b)) (timeline prs).

End Dates.

End Timeline.

(** * Properties *)

(** ** The diff formatter *)

Module UtilsFacts.

Import Js Utils Text.

(** Induction on strings two characters at a time, as [escapeHtml]
    recurses. *)
Lemma string_ind2 (P : string -> Prop) :
  P EmptyString ->
  (forall c, P (String c EmptyString)) ->
  (forall c d t, P t -> P (String d t) -> P (String c (String d t))) ->
  forall s, P s.
Proof.
  intros H0 H1 H2.
  assert (both : forall s, P s /\ forall c, P (String c s)).
  { induction s as [|d t [IHt IHdt]]; split; auto. }
  intros s. apply both.
Qed.

Lemma mentions_app c s1 s2 :
  mentions c (s1 ++ s2) = mentions c s1 || mentions c s2.
Proof.
  induction s1 as [|d t IH]; simpl; [done|].
  rewrite IH. by rewrite orb_assoc.
Qed.

Lemma isNbsp_cons c d t :
  isNbsp c (String d t) = Ascii.eqb c c_C2 && Ascii.eqb c_A0 d.
Proof.
  unfold isNbsp. cbn [startsWith]. destruct t; by rewrite andb_true_r.
Qed.

Lemma escapeHtml_cons c s :
  isNbsp c s = false -> escapeHtml (String c s) = escapeChar c ++ escapeHtml s.
Proof.
  unfold escapeChar. intros H. simpl.
  destruct (Ascii.eqb_spec c c_amp) as [->|]; [done|].
  destruct (Ascii.eqb_spec c c_lt) as [->|]; [done|].
  destruct (Ascii.eqb_spec c c_gt) as [->|]; [done|].
  destruct (Ascii.eqb_spec c c_C2) as [->|]; [|done].
  destruct s as [|d t]; [done|].
  rewrite isNbsp_cons, Ascii.eqb_refl, Ascii.eqb_sym in H.
  simpl in H. by rewrite H.
Qed.

Lemma isNbsp_nil c : isNbsp c EmptyString = false.
Proof. unfold isNbsp. by destruct (Ascii.eqb c c_C2). Qed.

Lemma escapeHtml_nbsp s :
  escapeHtml (String c_C2 (String c_A0 s)) = "&nbsp;" ++ escapeHtml s.
Proof. reflexivity. Qed.

Lemma split_nonempty sep s : split sep s <> [].
Proof.
  destruct s as [|c t]; simpl; [done|].
  destruct (Ascii.eqb c sep); [done|]. by destruct (split sep t).
Qed.

Lemma split_cons sep c s :
  Ascii.eqb c sep = false ->
  split sep (String c s) = headCons (String c EmptyString) (split sep s).
Proof. intros H. simpl. rewrite H. by destruct (split sep s). Qed.

Lemma split_sep sep s :
  split sep (String sep s) = EmptyString :: split sep s.
Proof. simpl. by rewrite Ascii.eqb_refl. Qed.

Lemma split_app sep u s :
  mentions sep u = false -> split sep (u ++ s) = headCons u (split sep s).
Proof.
  induction u as [|c u IH]; simpl; intros H.
  - destruct (split sep s) eqn:E; [by apply split_nonempty in E|done].
  - apply orb_false_elim in H as [Hc Hu].
    rewrite Hc, (IH Hu). by destruct (split sep s).
Qed.

Lemma escapeChar_no_LF c : Ascii.eqb c LF = false -> mentions LF (escapeChar c) = false.
Proof.
  intros H. unfold escapeChar.
  repeat (case_match; [reflexivity|]). simpl. by rewrite H.
Qed.

(** The line feed is none of the bytes that [escapeHtml] rewrites, so
    escaping the text and cutting it into lines commute. *)
Lemma split_escapeHtml s :
  split LF (escapeHtml s) = map escapeHtml (split LF s).
Proof.
  induction s as [|c|c d t IHt IHdt] using string_ind2.
  - reflexivity.
  - destruct (Ascii.eqb_spec c LF) as [->|HLF]; [reflexivity|].
    apply Ascii.eqb_neq in HLF.
    rewrite escapeHtml_cons by apply isNbsp_nil.
    rewrite split_app by (by apply escapeChar_no_LF).
    rewrite split_cons by done.
    change (split LF EmptyString) with [EmptyString].
    change (escapeHtml EmptyString) with EmptyString.
    cbn [headCons map].
    change (String c EmptyString +:+ EmptyString) with (String c EmptyString).
    rewrite escapeHtml_cons by apply isNbsp_nil.
    reflexivity.
  - destruct (Ascii.eqb_spec c LF) as [->|HLF].
    { change (escapeHtml (String LF (String d t)))
        with (String LF (escapeHtml (String d t))).
      by rewrite !split_sep, IHdt. }
    apply Ascii.eqb_neq in HLF.
    destruct (isNbsp c (String d t)) eqn:Hnb.
    + rewrite isNbsp_cons in Hnb. apply andb_prop in Hnb as [Hc Hd].
      apply Ascii.eqb_eq in Hc as ->. apply Ascii.eqb_eq in Hd as <-.
      rewrite escapeHtml_nbsp, split_app, IHt by reflexivity.
      rewrite !split_cons by reflexivity.
      pose proof (split_nonempty LF t). by destruct (split LF t).
    + rewrite escapeHtml_cons, split_app, IHdt by (done || by apply escapeChar_no_LF).
      rewrite (split_cons _ c) by done.
      pose proof (split_nonempty LF (String d t)) as Hne.
      destruct (split LF (String d t)) as [|p r] eqn:E; [done|]. simpl.
      f_equal. symmetry. apply escapeHtml_cons.
      rewrite isNbsp_cons in Hnb.
      destruct p as [|d' p']; [apply isNbsp_nil|].
      rewrite isNbsp_cons.
      destruct (Ascii.eqb_spec d LF) as [->|HdLF].
      { rewrite split_sep in E. by inversion E. }
      apply Ascii.eqb_neq in HdLF. rewrite split_cons in E by done.
      destruct (split LF t); inversion E; by subst.
Qed.

Lemma append_assoc (a b c : string) : (a ++ b) ++ c = a ++ b ++ c.
Proof.
  induction a as [|x a IH]; [done|].
  change (String x ((a ++ b) ++ c) = String x (a ++ b ++ c)). by rewrite IH.
Qed.

Lemma append_nil_r (a : string) : a ++ EmptyString = a.
Proof.
  induction a as [|x a IH]; [done|].
  change (String x (a ++ EmptyString) = String x a). by rewrite IH.
Qed.

(** The loop of [formatAndHighlightPatch] appends one piece per line. *)
Lemma fold_append {A} (f : A -> string) (l : list A) (acc : string) :
  fold_left (fun html x => html ++ f x) l acc = acc ++ concatMap f l.
Proof.
  revert acc. induction l as [|x l IH]; intros acc; simpl.
  - by rewrite append_nil_r.
  - by rewrite IH, append_assoc.
Qed.

Lemma concatMap_app {A} (f : A -> string) (l1 l2 : list A) :
  concatMap f (l1 ++ l2) = concatMap f l1 ++ concatMap f l2.
Proof.
  induction l1 as [|x l1 IH]; [done|].
  change (f x ++ concatMap f (l1 ++ l2) = (f x ++ concatMap f l1) ++ concatMap f l2).
  by rewrite IH, append_assoc.
Qed.

(** The output of the loop around the piece written for element [i]. *)
Lemma fold_append_middle {A} (f : A -> string) (l : list A) i x :
  l !! i = Some x ->
  fold_left (fun html x => html ++ f x) l EmptyString
  = concatMap f (take i l) ++ f x ++ concatMap f (drop (S i) l).
Proof.
  intros H. rewrite fold_append. change (EmptyString ++ ?s) with s.
  rewrite <- (take_drop_middle l i x H) at 1.
  by rewrite concatMap_app.
Qed.

(** After escaping, no angle bracket is left in the text. *)
Lemma escapeChar_no_angle c0 c :
  c = c_lt \/ c = c_gt -> mentions c (escapeChar c0) = false.
Proof.
  intros Hc. unfold escapeChar.
  destruct (Ascii.eqb_spec c0 c_amp); [by destruct Hc as [->| ->]|].
  destruct (Ascii.eqb_spec c0 c_lt); [by destruct Hc as [->| ->]|].
  destruct (Ascii.eqb_spec c0 c_gt); [by destruct Hc as [->| ->]|].
  cbn [mentions]. rewrite orb_false_r. apply Ascii.eqb_neq.
  by destruct Hc as [->| ->].
Qed.

Lemma escapeHtml_no_angle c s :
  c = c_lt \/ c = c_gt -> mentions c (escapeHtml s) = false.
Proof.
  intros Hc.
  induction s as [|c0|c0 d t IHt IHdt] using string_ind2.
  - reflexivity.
  - rewrite escapeHtml_cons by apply isNbsp_nil.
    rewrite mentions_app, escapeChar_no_angle by done. reflexivity.
  - destruct (isNbsp c0 (String d t)) eqn:Hnb.
    + rewrite isNbsp_cons in Hnb. apply andb_prop in Hnb as [H0 Hd].
      apply Ascii.eqb_eq in H0 as ->. apply Ascii.eqb_eq in Hd as <-.
      rewrite escapeHtml_nbsp, mentions_app, IHt.
      by destruct Hc as [->| ->].
    + by rewrite escapeHtml_cons, mentions_app, escapeChar_no_angle, IHdt.
Qed.

Lemma split_mentions sep c s :
  mentions c s = false -> Forall (fun piece => mentions c piece = false) (split sep s).
Proof.
  induction s as [|d t IH]; cbn [split mentions]; intros H.
  - by constructor.
  - apply orb_false_elim in H as [Hd Ht]. specialize (IH Ht).
    destruct (Ascii.eqb d sep).
    + by constructor.
    + destruct (split sep t) as [|p r]; inversion IH; subst;
        constructor; cbn [mentions]; try done.
      * by rewrite Hd.
      * by rewrite Hd, orb_false_l.
Qed.

Lemma substring_mentions c n s :
  mentions c s = false -> mentions c (substring n s) = false.
Proof.
  revert s. induction n as [|n IH]; intros [|d t]; cbn [substring mentions]; try done.
  intros [_ Ht]%orb_false_elim. by apply IH.
Qed.

Lemma classifyLine_mentions c line :
  mentions c line = false -> mentions c (classifyLine line).2 = false.
Proof.
  intros H. unfold classifyLine.
  repeat case_match; cbn [snd]; auto using substring_mentions.
Qed.

Section Formatter.

Variable hljs_highlight : string -> string -> string.

Abbreviation classifyLine := Utils.classifyLine.
Abbreviation highlight := (Utils.highlight hljs_highlight).
Abbreviation renderLine := (Utils.renderLine hljs_highlight).
Abbreviation formatAndHighlightPatch := (Utils.formatAndHighlightPatch hljs_highlight).

(** Every line is escaped before it is classified and highlighted. *)
Lemma formatAndHighlightPatch_lines patchContent language :
  truthy (Some patchContent) = true ->
  formatAndHighlightPatch (Some patchContent) language
  = fold_left (fun html line => html ++ renderLine language (escapeHtml line))
              (split LF patchContent) EmptyString.
Proof.
  intros H. unfold Utils.formatAndHighlightPatch. rewrite H. simpl.
  rewrite split_escapeHtml.
  generalize EmptyString.
  induction (split LF patchContent) as [|l ls IH]; intros acc; simpl; [done|].
  apply IH.
Qed.

Lemma highlight_plaintext codeLine : highlight "plaintext" codeLine = codeLine.
Proof. reflexivity. Qed.

Lemma startsWith_hunk line :
  startsWith line "@@" = true ->
  exists rest, line = String "@" (String "@" rest).
Proof.
  destruct line as [|a [|b rest]]; cbn [startsWith]; intros H.
  - done.
  - by rewrite andb_false_r in H.
  - apply andb_prop in H as [Ha H]. apply andb_prop in H as [Hb _].
    apply Ascii.eqb_eq in Ha as <-. apply Ascii.eqb_eq in Hb as <-. by exists rest.
Qed.

Lemma classifyLine_hunk line :
  startsWith line "@@" = true -> classifyLine line = ("diff-meta", line).
Proof. intros [rest ->]%startsWith_hunk. reflexivity. Qed.

Lemma escapeHtml_hunk line :
  startsWith line "@@" = true -> startsWith (escapeHtml line) "@@" = true.
Proof. intros [rest ->]%startsWith_hunk. reflexivity. Qed.

End Formatter.

End UtilsFacts.

(** ** The diff line classifier *)

Module DiffFormatter.

Import Js Utils Text UtilsFacts Sample.

(** C1 (as the code has it): a line of the raw diff text that starts
    with [@@] is given the metadata style and no leading character is
    stripped from it: the escaped line goes, whole, to the same
    highlighting step as every other line, which returns it unchanged
    when the language is plaintext and is [hljs.highlight] otherwise. *)
Theorem hunk_header_rendered_as_metadata
    (hljs_highlight : string -> string -> string)
    (patchContent language line : string) (i : nat) :
  split LF patchContent !! i = Some line ->
  startsWith line "@@" = true ->
  classifyLine (escapeHtml line) = ("diff-meta", escapeHtml line)
  /\ highlight hljs_highlight "plaintext" (escapeHtml line) = escapeHtml line
  /\ formatAndHighlightPatch hljs_highlight (Some patchContent) language
     = concatMap (fun l => renderLine hljs_highlight language (escapeHtml l))
                 (take i (split LF patchContent))
       ++ span "diff-meta" (highlight hljs_highlight language (escapeHtml line))
       ++ concatMap (fun l => renderLine hljs_highlight language (escapeHtml l))
                    (drop (S i) (split LF patchContent)).
Proof.
  intros Hi Hat.
  assert (Hmeta : classifyLine (escapeHtml line) = ("diff-meta", escapeHtml line))
    by (by apply classifyLine_hunk, escapeHtml_hunk).
  split; [done|]. split; [reflexivity|].
  assert (Htruthy : truthy (Some patchContent) = true).
  { destruct patchContent; [|done].
    destruct i; simpl in Hi; [|done]. by inversion Hi; subst. }
  rewrite formatAndHighlightPatch_lines by done.
  rewrite (fold_append_middle
             (fun l => renderLine hljs_highlight language (escapeHtml l))
             _ _ _ Hi).
  unfold renderLine at 2. by rewrite Hmeta.
Qed.

Lemma hunk_header_rendered_as_metadata_witness :
  classifyLine (escapeHtml "@@ -1,2 +1,2 @@") = ("diff-meta", escapeHtml "@@ -1,2 +1,2 @@")
  /\ highlight tagging "plaintext" (escapeHtml "@@ -1,2 +1,2 @@")
     = escapeHtml "@@ -1,2 +1,2 @@"
  /\ formatAndHighlightPatch tagging (Some "@@ -1,2 +1,2 @@") "python"
     = concatMap (fun l => renderLine tagging "python" (escapeHtml l))
                 (take 0 (split LF "@@ -1,2 +1,2 @@"))
       ++ span "diff-meta" (highlight tagging "python" (escapeHtml "@@ -1,2 +1,2 @@"))
       ++ concatMap (fun l => renderLine tagging "python" (escapeHtml l))
                    (drop 1 (split LF "@@ -1,2 +1,2 @@")).
Proof.
  apply (hunk_header_rendered_as_metadata tagging "@@ -1,2 +1,2 @@" "python"
           "@@ -1,2 +1,2 @@" 0); reflexivity.
Defined.

(** C1 (as the specification states it) fails: a line that starts with
    [+++] is caught by the test for a leading [+], and a line that starts
    with [---] by the test for a leading [-], so each gets the addition or
    removal style and loses its first character; and a [@@] line is
    passed to the highlighter when the language is not plaintext. *)
Lemma file_header_not_metadata :
  formatAndHighlightPatch tagging (Some "+++ b/utils.js") "plaintext"
  = "<span class=" ++ dquote ++ "diff-line diff-add" ++ dquote ++ ">"
    ++ "++ b/utils.js" ++ "</span>"
  /\ formatAndHighlightPatch tagging (Some "--- a/utils.js") "plaintext"
     = "<span class=" ++ dquote ++ "diff-line diff-remove" ++ dquote ++ ">"
       ++ "-- a/utils.js" ++ "</span>"
  /\ formatAndHighlightPatch tagging (Some "@@ -1 +1 @@") "javascript"
     = "<span class=" ++ dquote ++ "diff-line diff-meta" ++ dquote ++ ">"
       ++ "<i>@@ -1 +1 @@</i>" ++ "</span>".
Proof. repeat split; vm_compute; reflexivity. Qed.

(** C8: the line [+console.log('<script>')] is written as one span of the
    addition style whose text is [console.log('&lt;script&gt;')]: the
    leading [+] is gone, the tag is escaped, and no [<script>] occurs in
    the output (for a language other than plaintext the text between the
    tags is what the highlighter returns for that escaped text).  In
    general the whole text is escaped before its lines are classified and
    highlighted, so no angle bracket of the diff reaches the highlighter,
    and a line whose highlighted text is empty is written as one
    [&nbsp;]. *)
Theorem script_line_escaped_then_stripped
    (hljs_highlight : string -> string -> string) :
  formatAndHighlightPatch hljs_highlight (Some "+console.log('<script>')") "plaintext"
  = "<span class=" ++ dquote ++ "diff-line diff-add" ++ dquote ++ ">"
    ++ "console.log('&lt;script&gt;')" ++ "</span>"
  /\ (forall language,
        String.eqb language "plaintext" = false ->
        formatAndHighlightPatch hljs_highlight (Some "+console.log('<script>')") language
        = "<span class=" ++ dquote ++ "diff-line diff-add" ++ dquote ++ ">"
          ++ (if String.eqb (hljs_highlight "console.log('&lt;script&gt;')" language)
                            EmptyString
              then "&nbsp;"
              else hljs_highlight "console.log('&lt;script&gt;')" language)
          ++ "</span>")
  /\ (forall language,
        formatAndHighlightPatch hljs_highlight (Some "+console.log('<script>')") language
        = span "diff-add"
               (highlight hljs_highlight language "console.log('&lt;script&gt;')"))
  /\ includes
       (formatAndHighlightPatch hljs_highlight (Some "+console.log('<script>')")
                                "plaintext")
       "<script>" = false
  /\ includes
       (formatAndHighlightPatch hljs_highlight (Some "+console.log('<script>')")
                                "plaintext")
       "&lt;script&gt;" = true
  /\ (forall patchContent language,
        truthy (Some patchContent) = true ->
        formatAndHighlightPatch hljs_highlight (Some patchContent) language
        = fold_left
            (fun html line =>
               let lineClass := (classifyLine (escapeHtml line)).1 in
               let codeLine := (classifyLine (escapeHtml line)).2 in
               let highlighted :=
                 if String.eqb language "plaintext" then codeLine
                 else hljs_highlight codeLine language in
               html ++ "<span class=" ++ dquote ++ "diff-line " ++ lineClass ++ dquote
                    ++ ">"
                    ++ (if String.eqb highlighted EmptyString then "&nbsp;"
                        else highlighted)
                    ++ "</span>")
            (split LF patchContent) EmptyString)
  /\ (forall patchContent language,
        truthy (Some patchContent) = true ->
        formatAndHighlightPatch hljs_highlight (Some patchContent) language
        = fold_left
            (fun html line =>
               html ++ span (classifyLine (escapeHtml line)).1
                            (highlight hljs_highlight language
                                       (classifyLine (escapeHtml line)).2))
            (split LF patchContent) EmptyString)
  /\ (forall line,
        mentions c_lt (classifyLine (escapeHtml line)).2 = false
        /\ mentions c_gt (classifyLine (escapeHtml line)).2 = false)
  /\ formatAndHighlightPatch hljs_highlight (Some "+") "plaintext"
     = "<span class=" ++ dquote ++ "diff-line diff-add" ++ dquote ++ ">"
       ++ "&nbsp;" ++ "</span>"
  /\ formatAndHighlightPatch hljs_highlight
       (Some ("a" ++ String LF (String LF "b"))) "plaintext"
     = "<span class=" ++ dquote ++ "diff-line " ++ dquote ++ ">a</span>"
       ++ "<span class=" ++ dquote ++ "diff-line " ++ dquote ++ ">&nbsp;</span>"
       ++ "<span class=" ++ dquote ++ "diff-line " ++ dquote ++ ">b</span>"
  /\ (forall lineClass,
        span lineClass EmptyString
        = "<span class=" ++ dquote ++ "diff-line " ++ lineClass ++ dquote ++ ">"
          ++ "&nbsp;" ++ "</span>").
Proof.
  assert (Hlines : forall patchContent language,
            truthy (Some patchContent) = true ->
            formatAndHighlightPatch hljs_highlight (Some patchContent) language
            = fold_left
                (fun html line =>
                   html ++ span (classifyLine (escapeHtml line)).1
                                (highlight hljs_highlight language
                                           (classifyLine (escapeHtml line)).2))
                (split LF patchContent) EmptyString).
  { intros patchContent language H.
    rewrite formatAndHighlightPatch_lines by done.
    generalize EmptyString.
    induction (split LF patchContent) as [|line lines IH]; intros html; [done|].
    cbn [fold_left]. rewrite <- IH. unfold renderLine.
    by destruct (classifyLine (escapeHtml line)). }
  split; [vm_compute; reflexivity|].
  split.
  { intros language Hlang.
    change (formatAndHighlightPatch hljs_highlight (Some "+console.log('<script>')")
                                    language)
      with (span "diff-add"
                 (highlight hljs_highlight language "console.log('&lt;script&gt;')")).
    unfold span, highlight. rewrite Hlang. reflexivity. }
  split; [intros language; reflexivity|].
  split; [vm_compute; reflexivity|].
  split; [vm_compute; reflexivity|].
  split; [intros patchContent language H; rewrite (Hlines _ _ H); reflexivity|].
  split; [exact Hlines|].
  split.
  { intros line.
    split; apply classifyLine_mentions, escapeHtml_no_angle; auto. }
  split; [vm_compute; reflexivity|].
  split; [vm_compute; reflexivity|].
  reflexivity.
Qed.

End DiffFormatter.

(** ** Arrays: sorting and counters *)

Module ArrFacts.

Import Js.

Section Sort.
Context {A : Type} (comparefn : A -> A -> option Z).

Lemma insert_Permutation x l : Arr.insert comparefn x l ≡ₚ x :: l.
Proof.
  induction l as [|y r IH]; simpl; [done|].
  destruct (Arr.sortCompare comparefn x y <=? 0); [done|].
  rewrite IH. apply perm_swap.
Qed.

Lemma sort_Permutation l : Arr.sort comparefn l ≡ₚ l.
Proof.
  induction l as [|x l IH]; simpl; [done|].
  change (foldr (Arr.insert comparefn) [] l) with (Arr.sort comparefn l).
  by rewrite insert_Permutation, IH.
Qed.

Lemma sort_length l : length (Arr.sort comparefn l) = length l.
Proof. by rewrite sort_Permutation. Qed.

(** On elements for which the comparator decides a transitive order
    [R], the result is sorted by [R]. *)
Variable P : A -> Prop.
Variable R : A -> A -> Prop.
Hypothesis R_trans : forall x y z, P x -> P y -> P z -> R x y -> R y z -> R x z.
Hypothesis compare_le : forall x y,
  P x -> P y -> Arr.sortCompare comparefn x y <= 0 -> R x y.
Hypothesis compare_gt : forall x y,
  P x -> P y -> 0 < Arr.sortCompare comparefn x y -> R y x.

Lemma insert_StronglySorted x l :
  P x -> Forall P l -> StronglySorted R l ->
  StronglySorted R (Arr.insert comparefn x l).
Proof.
  intros Hx Hl Hs. induction Hs as [|y r Hr IH Hy]; simpl.
  - by repeat constructor.
  - apply Forall_cons in Hl as [Py Pr].
    destruct (Z.leb_spec (Arr.sortCompare comparefn x y) 0) as [Hle|Hgt].
    + constructor; [by constructor|].
      constructor; [by apply compare_le|].
      rewrite Forall_forall in Hy, Pr. apply Forall_forall. intros z Hz.
      apply (R_trans x y z); auto.
    + constructor; [by apply IH|].
      rewrite insert_Permutation. constructor; [by apply compare_gt|done].
Qed.

Lemma sort_StronglySorted l :
  Forall P l -> StronglySorted R (Arr.sort comparefn l).
Proof.
  induction 1 as [|x l Hx Hl IH]; simpl; [constructor|].
  apply insert_StronglySorted; [done| |done].
  change (foldr (Arr.insert comparefn) [] l) with (Arr.sort comparefn l).
  by rewrite sort_Permutation.
Qed.

End Sort.

(** Counters: assigning to a key that exists keeps the keys and changes
    the total by the difference. *)
Lemma set_keys k v o : is_Some (Arr.get k o) -> (Arr.set k v o).*1 = o.*1.
Proof.
  induction o as [|[k' v'] r IH]; simpl; intros H.
  - by destruct H.
  - destruct (String.eqb k' k); [done|]. simpl. f_equal. by apply IH.
Qed.

Lemma set_total k v o :
  is_Some (Arr.get k o) ->
  Arr.total (Arr.set k v o) = Arr.total o - default 0 (Arr.get k o) + v.
Proof.
  unfold Arr.total, Arr.values.
  induction o as [|[k' v'] r IH]; simpl; intros H.
  - by destruct H.
  - destruct (String.eqb k' k); simpl; [lia|]. specialize (IH H). unfold fmap in IH. lia.
Qed.

Lemma get_is_Some k o : k ∈ o.*1 -> is_Some (Arr.get k o).
Proof.
  induction o as [|[k' v'] r IH]; simpl; intros H.
  - by apply elem_of_nil in H.
  - destruct (String.eqb_spec k' k); [done|].
    apply elem_of_cons in H as [->|H]; [done|auto].
Qed.

End ArrFacts.

(** ** The store, the loader, the filter and the list *)

Module DashboardFacts.

Import Js Dashboard.

(** *** Reading and writing arrays *)

Lemma read_alloc_new xs s : read (alloc xs s).2 (alloc xs s).1 = xs.
Proof. unfold read, alloc. simpl. by rewrite list_lookup_middle. Qed.

Lemma read_alloc_old xs s r :
  (r < length (heap s))%nat -> read (alloc xs s).2 r = read s r.
Proof. intros H. unfold read, alloc. simpl. by rewrite lookup_app_l. Qed.

Lemma read_write_eq r xs s :
  (r < length (heap s))%nat -> read (write r xs s) r = xs.
Proof. intros H. unfold read, write. simpl. by rewrite list_lookup_insert_eq. Qed.

Lemma read_write_ne r r' xs s : r <> r' -> read (write r xs s) r' = read s r'.
Proof. intros H. unfold read, write. simpl. by rewrite list_lookup_insert_ne. Qed.

(** *** Rejected loads *)

Lemma promiseAll_rejects (files : list File) :
  promiseAll (map readFile files) = None <-> Malformed ∈ files.
Proof.
  unfold promiseAll. rewrite mapM_None, Exists_exists. split.
  - intros (o & Ho & Hnone). simpl in Hnone. subst o.
    apply list_elem_of_In, in_map_iff in Ho as (f & Hf & Hin).
    destruct f as [|[pr|prs]]; try done. by apply list_elem_of_In.
  - intros H. exists None. split; [|done].
    apply list_elem_of_In, in_map_iff. exists Malformed.
    split; [done|]. by apply list_elem_of_In.
Qed.

Section Dates.

Variable Date_parse : string -> option Z.
Variable Date_setHours : Z -> Z -> Z -> Z -> Z -> Z.

Abbreviation byCreatedAtDesc := (Dashboard.byCreatedAtDesc Date_parse).
Abbreviation generatePRList := (Dashboard.generatePRList Date_parse).
Abbreviation analyzeData := (Dashboard.analyzeData Date_parse).
Abbreviation loadFiles := (Dashboard.loadFiles Date_parse).
Abbreviation keeps := (Dashboard.keeps Date_parse Date_setHours).
Abbreviation filtered := (Dashboard.filtered Date_parse Date_setHours).
Abbreviation applyFilters := (Dashboard.applyFilters Date_parse Date_setHours).
Abbreviation reachable := (Dashboard.reachable Date_parse Date_setHours).
Abbreviation validDate := (Dashboard.validDate Date_parse).
Abbreviation descending := (Dashboard.descending Date_parse).

(** *** What rendering the list does to the store *)

Lemma generatePRList_refs w :
  prData (store (generatePRList w)) = prData (store w)
  /\ filteredPrData (store (generatePRList w)) = filteredPrData (store w)
  /\ length (heap (store (generatePRList w))) = length (heap (store w)).
Proof. unfold Dashboard.generatePRList. simpl. by rewrite length_insert. Qed.

Lemma generatePRList_separate w :
  separate (store w) -> separate (store (generatePRList w)).
Proof.
  unfold separate. destruct (generatePRList_refs w) as (-> & -> & ->). done.
Qed.

Lemma generatePRList_prData w :
  separate (store w) ->
  getPrData (store (generatePRList w)) = getPrData (store w).
Proof.
  intros (_ & _ & Hne). unfold getPrData, Dashboard.generatePRList. simpl.
  by rewrite read_write_ne.
Qed.

Lemma generatePRList_filteredPrData w :
  separate (store w) ->
  getFilteredPrData (store (generatePRList w))
  = Arr.sort byCreatedAtDesc (getFilteredPrData (store w)).
Proof.
  intros (_ & Hlt & _). unfold getFilteredPrData, Dashboard.generatePRList. simpl.
  by rewrite read_write_eq.
Qed.

Lemma generatePRList_stats w : stats (page (generatePRList w)) = stats (page w).
Proof. reflexivity. Qed.

(** *** The order the comparator decides *)

Lemma descending_trans a b c :
  descending a b -> descending b c -> descending a c.
Proof.
  intros (x & y & Ha & Hb & Hxy) (y' & z & Hb' & Hc & Hyz).
  exists x, z. rewrite Hb in Hb'. inversion Hb'; subst. repeat split; auto. lia.
Qed.

Lemma byCreatedAtDesc_valid a b :
  validDate a -> validDate b ->
  exists x y,
    newDate Date_parse (created_at a) = Some x
    /\ newDate Date_parse (created_at b) = Some y
    /\ Arr.sortCompare byCreatedAtDesc a b = y - x.
Proof.
  intros [x Hx] [y Hy]. exists x, y. repeat split; auto.
  unfold Arr.sortCompare, Dashboard.byCreatedAtDesc. by rewrite Hx, Hy.
Qed.

Lemma sort_descending prs :
  Forall validDate prs -> StronglySorted descending (Arr.sort byCreatedAtDesc prs).
Proof.
  apply ArrFacts.sort_StronglySorted.
  - intros a b c _ _ _. apply descending_trans.
  - intros a b Ha Hb Hle.
    destruct (byCreatedAtDesc_valid a b Ha Hb) as (x & y & Hx & Hy & Heq).
    exists x, y. repeat split; auto. lia.
  - intros a b Ha Hb Hgt.
    destruct (byCreatedAtDesc_valid a b Ha Hb) as (x & y & Hx & Hy & Heq).
    exists y, x. repeat split; auto. lia.
Qed.

(** *** The invariant of the store *)

Lemma analyzeData_separate w :
  separate (store w) -> separate (store (analyzeData w)).
Proof.
  intros H. unfold Dashboard.analyzeData.
  destruct (_ =? _)%nat; [done|]. by apply generatePRList_separate.
Qed.

Lemma loadFiles_separate files w :
  separate (store w) -> separate (store (loadFiles files w)).
Proof.
  intros H. unfold Dashboard.loadFiles.
  destruct (_ =? _)%nat; [done|].
  destruct (promiseAll _) as [results|]; [|done].
  simpl. apply analyzeData_separate. unfold separate. simpl.
  rewrite !length_app. simpl. lia.
Qed.

(** [applyFilters] stores the filter's result in a new array and
    renders the list. *)
Lemma applyFilters_unfold inputs w :
  applyFilters inputs w
  = generatePRList
      (mkWorld
         (mkStore (heap (store w) ++ [filtered inputs (getPrData (store w))])
                  (prData (store w)) (length (heap (store w))))
         (page w)).
Proof. reflexivity. Qed.

Lemma applyFilters_separate inputs w :
  separate (store w) -> separate (store (applyFilters inputs w)).
Proof.
  intros (H1 & H2 & H3). rewrite applyFilters_unfold.
  apply generatePRList_separate. unfold separate. simpl.
  rewrite !length_app. simpl. lia.
Qed.

Lemma reachable_separate w : reachable w -> separate (store w).
Proof.
  induction 1 as [|files w _ IH|inputs w _ IH].
  - unfold separate. simpl. lia.
  - by apply loadFiles_separate.
  - by apply applyFilters_separate.
Qed.

End Dates.

End DashboardFacts.

(** ** The loader *)

Module Loader.

Import Js Dashboard DashboardFacts.

Section Dates.

Variable Date_parse : string -> option Z.

Abbreviation loadFiles := (Dashboard.loadFiles Date_parse).
Abbreviation analyzeData := (Dashboard.analyzeData Date_parse).
Abbreviation generatePRList := (Dashboard.generatePRList Date_parse).

(** The store that a resolved load hands to [analyzeData]. *)
Lemma loadFiles_resolved files results w :
  files <> [] ->
  promiseAll (map readFile files) = Some results ->
  exists s,
    getPrData s = concat results
    /\ getFilteredPrData s = concat results
    /\ store (loadFiles files w)
       = store (analyzeData
                  (mkWorld s (withAnalysisResults false (withLoading true (page w)))))
    /\ stats (page (loadFiles files w))
       = stats (page (analyzeData
                  (mkWorld s (withAnalysisResults false (withLoading true (page w)))))).
Proof.
  intros Hne Hall.
  unfold Dashboard.loadFiles.
  destruct files as [|f files]; [done|]. cbn [length Nat.eqb].
  rewrite Hall.
  set (xs := concat results).
  set (s0 := store w).
  set (s1 := setPrData (alloc xs s0).1 (alloc xs s0).2).
  assert (H1 : getPrData s1 = xs) by apply (read_alloc_new xs s0).
  set (s2 := setFilteredPrData (alloc (getPrData s1) s1).1 (alloc (getPrData s1) s1).2).
  exists s2. split; [|split].
  - change (getPrData s2) with (read (alloc (getPrData s1) s1).2 (prData s1)).
    rewrite read_alloc_old; [apply H1|].
    unfold s1. simpl. rewrite length_app. simpl. lia.
  - transitivity (getPrData s1); [|apply H1].
    apply (read_alloc_new (getPrData s1) s1).
  - split; reflexivity.
Qed.

Lemma analyzeData_stats w :
  getPrData (store w) <> [] ->
  stats (page (analyzeData w)) = computeStats (getPrData (store w)).
Proof.
  intros H. unfold Dashboard.analyzeData.
  destruct (getPrData (store w)) eqn:E; [done|].
  cbn [length Nat.eqb]. rewrite <- E. reflexivity.
Qed.

Lemma loadFiles_stats files results w :
  files <> [] ->
  promiseAll (map readFile files) = Some results ->
  concat results <> [] ->
  stats (page (loadFiles files w)) = computeStats (concat results).
Proof.
  intros Hne Hall Hdata.
  destruct (loadFiles_resolved files results w Hne Hall) as (s & Hs & _ & _ & ->).
  rewrite analyzeData_stats; simpl; by rewrite Hs.
Qed.

End Dates.

(** C3: if one of the files does not parse, the joined promise rejects,
    the two variables and the arrays they refer to are what they were
    before the load, and one error notification is shown. *)
Theorem loadFiles_all_or_nothing
    (Date_parse : string -> option Z) (files : list File) (w : World) :
  Malformed ∈ files ->
  promiseAll (map readFile files) = None
  /\ store (Dashboard.loadFiles Date_parse files w) = store w
  /\ getPrData (store (Dashboard.loadFiles Date_parse files w)) = getPrData (store w)
  /\ getFilteredPrData (store (Dashboard.loadFiles Date_parse files w))
     = getFilteredPrData (store w)
  /\ errorMessages (page (Dashboard.loadFiles Date_parse files w))
     = (errorMessages (page w)
          ++ ["File format error, please ensure uploading valid JSON files"])%list.
Proof.
  intros Hbad.
  assert (Hrej : promiseAll (map readFile files) = None)
    by (by apply promiseAll_rejects).
  assert (Hstore : store (Dashboard.loadFiles Date_parse files w) = store w).
  { unfold Dashboard.loadFiles. rewrite Hrej. by destruct (_ =? _)%nat. }
  split; [done|]. split; [done|].
  rewrite Hstore. split; [done|]. split; [done|].
  unfold Dashboard.loadFiles. rewrite Hrej.
  destruct files as [|f files]; [by apply elem_of_nil in Hbad|]. reflexivity.
Qed.

Lemma loadFiles_all_or_nothing_witness :
  promiseAll (map readFile [Parsed (JObject Sample.single); Malformed]) = None
  /\ store (Dashboard.loadFiles Sample.utcParse
              [Parsed (JObject Sample.single); Malformed] Sample.loaded)
     = store Sample.loaded
  /\ getPrData (store (Dashboard.loadFiles Sample.utcParse
              [Parsed (JObject Sample.single); Malformed] Sample.loaded))
     = getPrData (store Sample.loaded)
  /\ getFilteredPrData (store (Dashboard.loadFiles Sample.utcParse
              [Parsed (JObject Sample.single); Malformed] Sample.loaded))
     = getFilteredPrData (store Sample.loaded)
  /\ errorMessages (page (Dashboard.loadFiles Sample.utcParse
              [Parsed (JObject Sample.single); Malformed] Sample.loaded))
     = (errorMessages (page Sample.loaded)
          ++ ["File format error, please ensure uploading valid JSON files"])%list.
Proof.
  apply (loadFiles_all_or_nothing Sample.utcParse
           [Parsed (JObject Sample.single); Malformed] Sample.loaded).
  do 2 constructor.
Defined.

End Loader.

(** ** The filter engine *)

Module FilterEngine.

Import Js Dashboard DashboardFacts Sample.

Lemma filter_sublist {A} (f : A -> bool) (l : list A) : sublist (List.filter f l) l.
Proof.
  induction l as [|x l IH]; simpl; [constructor|].
  destruct (f x); by constructor.
Qed.

Lemma sublist_filter_length {A} (f : A -> bool) (l1 l2 : list A) :
  sublist l1 l2 -> (length (List.filter f l1) <= length (List.filter f l2))%nat.
Proof.
  induction 1 as [|x l1 l2 _ IH|x l1 l2 _ IH]; simpl; [done| |];
    destruct (f x); simpl; lia.
Qed.

Lemma includes_empty s : includes s EmptyString = true.
Proof. by destruct s. Qed.

(** For a record that has a [problem_statement], the text condition is
    the containment test, and the empty query passes. *)
Lemma matchesTitle_present prQuery pr text :
  problem_statement pr = Some text ->
  matchesTitle prQuery pr = Some (includes (toLowerCase text) prQuery)
  /\ matchesTitle EmptyString pr = Some true.
Proof.
  intros H. unfold matchesTitle. rewrite H. simpl.
  by rewrite includes_empty.
Qed.

(** C4: what the filter returns is a subsequence of the full dataset:
    the records are records of the input, in the input's order, and no
    record occurs more often than it does in the input. *)
Theorem filtered_subsequence
    (Date_parse : string -> option Z) (Date_setHours : Z -> Z -> Z -> Z -> Z -> Z)
    (inputs : FilterInputs) (prs : list PR) :
  sublist (filtered Date_parse Date_setHours inputs prs) prs
  /\ (forall pr, pr ∈ filtered Date_parse Date_setHours inputs prs -> pr ∈ prs)
  /\ (forall which : PR -> bool,
        (length (List.filter which (filtered Date_parse Date_setHours inputs prs))
         <= length (List.filter which prs))%nat).
Proof.
  assert (H : sublist (filtered Date_parse Date_setHours inputs prs) prs)
    by apply filter_sublist.
  split; [done|]. split.
  - intros pr Hin. by apply (sublist_subseteq _ _ H).
  - intros which. by apply sublist_filter_length.
Qed.

(** C2 (the code at the failing input): with every filter control empty,
    a record without a [problem_statement] has an undefined text
    condition and is dropped from the filtered view, although the list
    shows it right after the load. *)
Theorem empty_query_drops_untitled_record :
  matchesTitle (toLowerCase (prFilter noFilter)) untitled = None
  /\ (forall Date_parse Date_setHours,
        filtered Date_parse Date_setHours noFilter [untitled] = [])
  /\ (forall Date_parse Date_setHours inputs pr,
        problem_statement pr = None ->
        keeps Date_parse Date_setHours inputs pr = false)
  /\ (forall Date_parse,
        getFilteredPrData
          (store (loadFiles Date_parse [Parsed (JObject untitled)] initial))
        = [untitled]).
Proof.
  split; [reflexivity|]. split; [reflexivity|]. split.
  - intros Date_parse Date_setHours inputs pr H.
    unfold keeps, matchesTitle. by rewrite H.
  - intros Date_parse. reflexivity.
Qed.

(** C10: a record without [created_at] passes the date conditions
    whatever the two bounds are, so only the other three conditions can
    exclude it. *)
Theorem absent_created_at_passes_date_range
    (Date_parse : string -> option Z) (Date_setHours : Z -> Z -> Z -> Z -> Z -> Z)
    (inputs : FilterInputs) (pr : PR) :
  created_at pr = None ->
  newDate Date_parse (created_at pr) = None
  /\ (forall bound, dateLt (newDate Date_parse (created_at pr)) bound = false)
  /\ (forall bound, dateGt (newDate Date_parse (created_at pr)) bound = false)
  /\ matchesDate Date_parse Date_setHours (startDate inputs) (endDate inputs) pr = true
  /\ keeps Date_parse Date_setHours inputs pr
     = default false (matchesTitle (toLowerCase (prFilter inputs)) pr)
       && matchesRepo (selectedRepos inputs) pr
       && matchesFailToPass (failToPassFilter inputs) pr.
Proof.
  intros H.
  assert (Hdate : matchesDate Date_parse Date_setHours
                    (startDate inputs) (endDate inputs) pr = true).
  { unfold matchesDate, dateGt, dateLt. rewrite H.
    change (newDate Date_parse None) with (@None Z).
    destruct (truthy (Some (startDate inputs))), (truthy (Some (endDate inputs)));
      try done; by destruct (setHours _ _ _ _ _ _). }
  split; [by rewrite H|].
  split; [intros bound; by rewrite H|].
  split; [intros bound; rewrite H; by destruct bound|].
  split; [done|].
  unfold keeps. rewrite Hdate. by rewrite andb_true_r.
Qed.

Lemma absent_created_at_passes_date_range_witness :
  newDate utcParse (created_at undated) = None
  /\ (forall bound, dateLt (newDate utcParse (created_at undated)) bound = false)
  /\ (forall bound, dateGt (newDate utcParse (created_at undated)) bound = false)
  /\ matchesDate utcParse utcSetHours (startDate oneDay) (endDate oneDay) undated = true
  /\ keeps utcParse utcSetHours oneDay undated
     = default false (matchesTitle (toLowerCase (prFilter oneDay)) undated)
       && matchesRepo (selectedRepos oneDay) undated
       && matchesFailToPass (failToPassFilter oneDay) undated.
Proof.
  apply (absent_created_at_passes_date_range utcParse utcSetHours oneDay undated).
  reflexivity.
Defined.

End FilterEngine.

(** ** The histograms *)

Module Histograms.

Import Js Dashboard ArrFacts Sample.

Lemma increment_keys range distribution :
  range ∈ distribution.*1 -> (increment range distribution).*1 = distribution.*1.
Proof. intros H. by apply set_keys, get_is_Some. Qed.

Lemma increment_total range distribution :
  range ∈ distribution.*1 ->
  Arr.total (increment range distribution) = Arr.total distribution + 1.
Proof.
  intros H. unfold increment. rewrite set_total by (by apply get_is_Some).
  unfold orZero. lia.
Qed.

(** A loop that increments one existing counter per element keeps the
    counters and adds the number of elements to their total. *)
Lemma count_loop {A} (range : A -> string) (xs : list A) distribution :
  (forall x, range x ∈ distribution.*1) ->
  let result := fold_left (fun d x => increment (range x) d) xs distribution in
  result.*1 = distribution.*1
  /\ Arr.total result = Arr.total distribution + Z.of_nat (length xs).
Proof.
  intros Hrange. revert distribution Hrange.
  induction xs as [|x xs IH]; intros distribution Hrange; simpl.
  - split; [done|lia].
  - destruct (IH (increment (range x) distribution)) as [Hkeys Htotal].
    { intros y. by rewrite increment_keys. }
    rewrite Hkeys, Htotal, increment_keys, increment_total by done.
    split; [done|lia].
Qed.

Lemma fileRange_key count : fileRange count ∈ ["1-2"; "3-5"; "6-10"; "10+"].
Proof. unfold fileRange. repeat case_match; set_solver. Qed.

Lemma changeRange_key change : changeRange change ∈ ["1-10"; "11-50"; "51-100"; "100+"].
Proof. unfold changeRange. repeat case_match; set_solver. Qed.

Lemma fileDistribution_shape prs :
  (fileDistribution prs).*1 = ["1-2"; "3-5"; "6-10"; "10+"]
  /\ Arr.total (fileDistribution prs) = Z.of_nat (length prs).
Proof.
  destruct (count_loop fileRange (map fileCount prs)
              [("1-2", 0); ("3-5", 0); ("6-10", 0); ("10+", 0)]) as [K T].
  { intros x. apply fileRange_key. }
  rewrite length_map in T. by split.
Qed.

Lemma changesDistribution_shape prs :
  (changesDistribution prs).*1 = ["1-10"; "11-50"; "51-100"; "100+"]
  /\ Arr.total (changesDistribution prs) = Z.of_nat (length prs).
Proof.
  destruct (count_loop changeRange (map changeCount prs)
              [("1-10", 0); ("11-50", 0); ("51-100", 0); ("100+", 0)]) as [K T].
  { intros x. apply changeRange_key. }
  rewrite length_map in T. by split.
Qed.

(** C6: each histogram keeps its four buckets, and their counts add up
    to the number of records it was given. *)
Theorem histogram_counts_sum_to_length (prs : list PR) :
  (fileDistribution prs).*1 = ["1-2"; "3-5"; "6-10"; "10+"]
  /\ Arr.total (fileDistribution prs) = Z.of_nat (length prs)
  /\ (changesDistribution prs).*1 = ["1-10"; "11-50"; "51-100"; "100+"]
  /\ Arr.total (changesDistribution prs) = Z.of_nat (length prs).
Proof.
  destruct (fileDistribution_shape prs), (changesDistribution_shape prs).
  repeat split; assumption.
Qed.

Lemma get_set_eq k v o : is_Some (Arr.get k o) -> Arr.get k (Arr.set k v o) = Some v.
Proof.
  induction o as [|[k' v'] r IH]; simpl; intros H.
  - by destruct H.
  - destruct (String.eqb k' k) eqn:E; simpl; rewrite E; auto.
Qed.



End Histograms.

(** ** The statistics *)

Module Statistics.

Import Js Dashboard DashboardFacts Loader Sample.

(** C5 (as the code has it): after loading a file with one object whose
    [repo] is [a/b] and whose [FAIL_TO_PASS] is [t1], and a file with an
    array of two objects, one with [FAIL_TO_PASS] unset and the other
    with no truthy [FAIL_TO_PASS] either, the counters show 3 records,
    1 fail-to-pass record and 1 fail-to-pass repository. *)
Theorem two_files_statistics
    (Date_parse : string -> option Z) (w : World)
    (object x y : PR) (array : list PR) (files : list File) :
  repo object = Some "a/b" ->
  FAIL_TO_PASS object = Some "t1" ->
  FAIL_TO_PASS x = None ->
  truthy (FAIL_TO_PASS y) = false ->
  [x; y] ≡ₚ array ->
  [Parsed (JObject object); Parsed (JArray array)] ≡ₚ files ->
  totalPRs (stats (page (loadFiles Date_parse files w))) = 3
  /\ failToPassPRs (stats (page (loadFiles Date_parse files w))) = 1
  /\ failToPassRepos (stats (page (loadFiles Date_parse files w))) = 1.
Proof.
  intros Hrepo Hflag Hx Hy Harray Hfiles.
  assert (Ho : isFailToPass object = true) by (unfold isFailToPass; by rewrite Hflag).
  assert (Hx' : isFailToPass x = false) by (unfold isFailToPass; by rewrite Hx).
  assert (Hy' : isFailToPass y = false) by done.
  apply Permutation_length_2_inv in Harray, Hfiles.
  destruct Harray as [-> | ->], Hfiles as [-> | ->];
    (erewrite loadFiles_stats; [|done|reflexivity|done]);
    unfold computeStats; cbn [concat app List.filter length];
    rewrite Ho, Hx', Hy'; cbn [map length]; rewrite Hrepo; done.
Qed.

Lemma two_files_statistics_witness :
  totalPRs (stats (page (loadFiles utcParse
      [Parsed (JObject single); Parsed (JArray [bare; bare])] initial))) = 3
  /\ failToPassPRs (stats (page (loadFiles utcParse
      [Parsed (JObject single); Parsed (JArray [bare; bare])] initial))) = 1
  /\ failToPassRepos (stats (page (loadFiles utcParse
      [Parsed (JObject single); Parsed (JArray [bare; bare])] initial))) = 1.
Proof.
  apply (two_files_statistics utcParse initial single bare bare [bare; bare]);
    reflexivity.
Defined.

(** C5 (as the specification states it) fails: when the other object of
    the array has a [FAIL_TO_PASS] of its own, there are 2 fail-to-pass
    records, and their repositories, [a/b] and [undefined], are 2. *)
Lemma second_array_object_flagged :
  stats (page (loadFiles utcParse
      [Parsed (JObject single); Parsed (JArray [bare; flagged])] initial))
  = {| totalPRs := 3; failToPassPRs := 2; totalRepos := 2; failToPassRepos := 2 |}.
Proof. vm_compute. reflexivity. Qed.

End Statistics.

(** ** The list *)

Module ListRenderer.

Import Js Dashboard DashboardFacts ArrFacts Sample.

(** C9 (as the code has it): rendering the list sorts in place the array
    that [filteredPrData] refers to: afterwards the stored view is a
    rearrangement of what it was, the list shows that view, and the array
    that [prData] refers to is another one and is not touched.  When
    every record of the view has a [created_at] that parses, the
    comparator is consistent and the view is the stable sort, descending
    by [created_at]; with a record whose date does not parse nothing is
    claimed about the order.  So after [applyFilters] the stored view is
    a rearrangement of the result of the filter, sorted when the dates
    are valid, not the result in dataset order. *)
Theorem generatePRList_sorts_stored_view
    (Date_parse : string -> option Z) (Date_setHours : Z -> Z -> Z -> Z -> Z -> Z)
    (inputs : FilterInputs) (w : World) :
  reachable Date_parse Date_setHours w ->
  let w' := generatePRList Date_parse w in
  let w'' := applyFilters Date_parse Date_setHours inputs w in
  prData (store w') = prData (store w)
  /\ filteredPrData (store w') = filteredPrData (store w)
  /\ prData (store w') <> filteredPrData (store w')
  /\ getPrData (store w') = getPrData (store w)
  /\ getFilteredPrData (store w') ≡ₚ getFilteredPrData (store w)
  /\ prList (page w') = getFilteredPrData (store w')
  /\ (Forall (validDate Date_parse) (getFilteredPrData (store w)) ->
      getFilteredPrData (store w')
      = Arr.sort (byCreatedAtDesc Date_parse) (getFilteredPrData (store w))
      /\ StronglySorted (descending Date_parse) (getFilteredPrData (store w')))
  /\ getPrData (store w'') = getPrData (store w)
  /\ getFilteredPrData (store w'')
     ≡ₚ filtered Date_parse Date_setHours inputs (getPrData (store w))
  /\ prList (page w'') = getFilteredPrData (store w'')
  /\ (Forall (validDate Date_parse)
             (filtered Date_parse Date_setHours inputs (getPrData (store w))) ->
      getFilteredPrData (store w'')
      = Arr.sort (byCreatedAtDesc Date_parse)
                 (filtered Date_parse Date_setHours inputs (getPrData (store w)))
      /\ StronglySorted (descending Date_parse) (getFilteredPrData (store w''))).
Proof.
  intros Hreach w' w''.
  pose proof (reachable_separate _ _ _ Hreach) as Hsep.
  pose proof (generatePRList_separate Date_parse w Hsep) as Hsep'.
  destruct (generatePRList_refs Date_parse w) as (Hp & Hf & _).
  pose proof (generatePRList_filteredPrData Date_parse w Hsep) as Hview.
  split; [done|]. split; [done|]. split; [apply Hsep'|].
  split; [by apply generatePRList_prData|].
  split; [subst w'; rewrite Hview; apply sort_Permutation|].
  split; [by subst w'; rewrite Hview|].
  split.
  { intros Hvalid. subst w'. rewrite Hview.
    split; [done|by apply sort_descending]. }
  assert (Hsep0 : separate
            (mkStore (heap (store w)
                        ++ [filtered Date_parse Date_setHours inputs (getPrData (store w))])
                     (prData (store w)) (length (heap (store w))))).
  { destruct Hsep as (H1 & H2 & H3). unfold separate. simpl.
    rewrite length_app. simpl. lia. }
  assert (Hview'' : getFilteredPrData (store w'')
                    = Arr.sort (byCreatedAtDesc Date_parse)
                        (filtered Date_parse Date_setHours inputs
                                  (getPrData (store w)))).
  { subst w''. rewrite applyFilters_unfold.
    rewrite generatePRList_filteredPrData by done. f_equal.
    unfold getFilteredPrData, read. simpl. by rewrite list_lookup_middle. }
  split.
  { subst w''. rewrite applyFilters_unfold.
    rewrite generatePRList_prData by done.
    unfold getPrData, read. simpl. rewrite lookup_app_l; [done|apply Hsep]. }
  split; [rewrite Hview''; apply sort_Permutation|].
  split.
  { rewrite Hview''. subst w''. rewrite applyFilters_unfold.
    unfold Dashboard.generatePRList, read. simpl.
    by rewrite list_lookup_middle. }
  intros Hvalid. rewrite Hview''.
  split; [done|by apply sort_descending].
Qed.

Lemma generatePRList_sorts_stored_view_witness :
  let w' := generatePRList utcParse loaded in
  let w'' := applyFilters utcParse utcSetHours noFilter loaded in
  prData (store w') = prData (store loaded)
  /\ filteredPrData (store w') = filteredPrData (store loaded)
  /\ prData (store w') <> filteredPrData (store w')
  /\ getPrData (store w') = getPrData (store loaded)
  /\ getFilteredPrData (store w') ≡ₚ getFilteredPrData (store loaded)
  /\ prList (page w') = getFilteredPrData (store w')
  /\ (Forall (validDate utcParse) (getFilteredPrData (store loaded)) ->
      getFilteredPrData (store w')
      = Arr.sort (byCreatedAtDesc utcParse) (getFilteredPrData (store loaded))
      /\ StronglySorted (descending utcParse) (getFilteredPrData (store w')))
  /\ getPrData (store w'') = getPrData (store loaded)
  /\ getFilteredPrData (store w'')
     ≡ₚ filtered utcParse utcSetHours noFilter (getPrData (store loaded))
  /\ prList (page w'') = getFilteredPrData (store w'')
  /\ (Forall (validDate utcParse)
             (filtered utcParse utcSetHours noFilter (getPrData (store loaded))) ->
      getFilteredPrData (store w'')
      = Arr.sort (byCreatedAtDesc utcParse)
                 (filtered utcParse utcSetHours noFilter (getPrData (store loaded)))
      /\ StronglySorted (descending utcParse) (getFilteredPrData (store w''))).
Proof.
  apply (generatePRList_sorts_stored_view utcParse utcSetHours noFilter loaded).
  apply reach_loadFiles, reach_initial.
Defined.

(** C9 (as the specification states it) fails: with a record without
    [created_at] between them, January stays in front of March, because
    every comparison with the undated record yields NaN, which the sort
    takes for a tie: each of the three records ties with its successor,
    so the array is one run already and is returned as it is. *)
Lemma undated_record_blocks_sorting :
  getFilteredPrData (store (generatePRList utcParse mixed))
  = [january; undated; march]
  /\ newDate utcParse (created_at january) = Some 1704067200000
  /\ newDate utcParse (created_at march) = Some 1710460800000
  /\ dateLt (newDate utcParse (created_at january))
            (newDate utcParse (created_at march)) = true
  /\ byCreatedAtDesc utcParse january undated = None
  /\ byCreatedAtDesc utcParse undated march = None.
Proof. repeat split; vm_compute; reflexivity. Qed.

(** The filter returns January before March, as the dataset has them;
    the view it leaves in the store has March first, and the dataset is
    as it was. *)
Example applyFilters_reorders_stored_view :
  getPrData (store loaded) = [january; march]
  /\ filtered utcParse utcSetHours noFilter (getPrData (store loaded))
     = [january; march]
  /\ getFilteredPrData (store (applyFilters utcParse utcSetHours noFilter loaded))
     = [march; january]
  /\ getPrData (store (applyFilters utcParse utcSetHours noFilter loaded))
     = [january; march].
Proof. repeat split; vm_compute; reflexivity. Qed.

End ListRenderer.

(** ** More on the statistics and the charts *)

Module StatisticsFacts.

Import Js Dashboard DashboardFacts ArrFacts Loader Histograms Sample.

Lemma setSize_le_length `{Countable A} (xs : list A) :
  Arr.setSize xs <= Z.of_nat (length xs).
Proof.
  unfold Arr.setSize. apply inj_le.
  induction xs as [|x xs IH].
  - done.
  - rewrite list_to_set_cons, size_union_alt, size_singleton. cbn [length].
    apply le_n_S. etrans; [|apply IH].
    apply subseteq_size. intros y Hy. by apply elem_of_difference in Hy as [? _].
Qed.

Lemma setSize_mono `{Countable A} (xs ys : list A) :
  xs ⊆ ys -> Arr.setSize xs <= Arr.setSize ys.
Proof.
  intros Hsub. unfold Arr.setSize. apply inj_le, subseteq_size.
  intros x. rewrite !elem_of_list_to_set. apply Hsub.
Qed.

Lemma filter_subseteq {A} (f : A -> bool) (l : list A) : List.filter f l ⊆ l.
Proof. apply sublist_subseteq, FilterEngine.filter_sublist. Qed.

Lemma filter_length_le {A} (f : A -> bool) (l : list A) :
  (length (List.filter f l) <= length l)%nat.
Proof. apply sublist_length, FilterEngine.filter_sublist. Qed.

(** X1: The four counters are ordered: the fail-to-pass records are among the
    records, repositories are at most as many as the records they come
    from, and the fail-to-pass repositories are among the repositories. *)
Theorem computeStats_ordered (prs : list PR) :
  let st := computeStats prs in
  0 <= failToPassRepos st
  /\ failToPassRepos st <= failToPassPRs st
  /\ failToPassPRs st <= totalPRs st
  /\ failToPassRepos st <= totalRepos st
  /\ totalRepos st <= totalPRs st.
Proof.
  cbn zeta. unfold computeStats. cbn [failToPassRepos failToPassPRs totalPRs totalRepos].
  repeat split.
  - unfold Arr.setSize. lia.
  - etrans; [apply setSize_le_length|]. by rewrite length_map.
  - apply inj_le, filter_length_le.
  - apply setSize_mono. intros r Hr.
    apply list_elem_of_fmap in Hr as (pr & -> & Hpr).
    apply list_elem_of_fmap. exists pr. split; [done|]. by apply filter_subseteq in Hpr.
  - etrans; [apply setSize_le_length|]. by rewrite length_map.
Qed.

Section Dates.

Variable Date_parse : string -> option Z.

Abbreviation loadFiles := (Dashboard.loadFiles Date_parse).
Abbreviation analyzeData := (Dashboard.analyzeData Date_parse).
Abbreviation generatePRList := (Dashboard.generatePRList Date_parse).
Abbreviation byCreatedAtDesc := (Dashboard.byCreatedAtDesc Date_parse).

(** The world that a resolved load leaves: what [analyzeData] makes of the
    two new arrays, with the loading indicator off and the results shown. *)
Lemma loadFiles_resolved_world files results w :
  files <> [] ->
  promiseAll (map readFile files) = Some results ->
  exists s,
    separate s
    /\ getPrData s = concat results
    /\ getFilteredPrData s = concat results
    /\ loadFiles files w
       = let w1 := analyzeData
                     (mkWorld s (withAnalysisResults false (withLoading true (page w)))) in
         mkWorld (store w1) (withAnalysisResults true (withLoading false (page w1))).
Proof.
  intros Hne Hall.
  unfold Dashboard.loadFiles.
  destruct files as [|f files]; [done|]. cbn [length Nat.eqb].
  rewrite Hall.
  set (xs := concat results).
  set (s0 := store w).
  set (s1 := setPrData (alloc xs s0).1 (alloc xs s0).2).
  assert (H1 : getPrData s1 = xs) by apply (read_alloc_new xs s0).
  set (s2 := setFilteredPrData (alloc (getPrData s1) s1).1 (alloc (getPrData s1) s1).2).
  exists s2. split; [|split; [|split]].
  - unfold separate, s2, s1. simpl. rewrite !length_app. simpl. lia.
  - change (getPrData s2) with (read (alloc (getPrData s1) s1).2 (prData s1)).
    rewrite read_alloc_old; [apply H1|].
    unfold s1. simpl. rewrite length_app. simpl. lia.
  - transitivity (getPrData s1); [|apply H1].
    apply (read_alloc_new (getPrData s1) s1).
  - reflexivity.
Qed.

(** After a load that brings at least one record, the store holds the
    concatenation of the files, the view is its sorted copy, and the page
    shows the statistics, the charts and the list of that dataset. *)
Lemma loadFiles_resolved_nonempty files results w :
  files <> [] ->
  promiseAll (map readFile files) = Some results ->
  concat results <> [] ->
  let xs := concat results in
  let w' := loadFiles files w in
  getPrData (store w') = xs
  /\ getFilteredPrData (store w') = Arr.sort byCreatedAtDesc xs
  /\ separate (store w')
  /\ page w'
     = {| stats := computeStats xs;
          fileDistChart := fileDistribution (List.filter isFailToPass xs);
          changesChart := changesDistribution (List.filter isFailToPass xs);
          prList := Arr.sort byCreatedAtDesc xs;
          prCount := Z.of_nat (length (Arr.sort byCreatedAtDesc xs));
          errorMessages := errorMessages (page w);
          loading := false;
          analysisResults := true |}.
Proof.
  intros Hne Hall Hdata. cbn zeta.
  destruct (loadFiles_resolved_world files results w Hne Hall)
    as (s & Hsep & Hs & Hv & Heq).
  rewrite Heq. cbn zeta.
  set (w0 := mkWorld s _).
  assert (Han : analyzeData w0 = generatePRList (createCharts (updateStats w0))).
  { unfold Dashboard.analyzeData. change (store w0) with s. rewrite Hs.
    destruct (concat results); [done|reflexivity]. }
  rewrite Han. cbn [store page].
  assert (Hsep0 : separate (store (createCharts (updateStats w0)))) by exact Hsep.
  split; [|split; [|split]].
  - rewrite generatePRList_prData by done. exact Hs.
  - rewrite generatePRList_filteredPrData by done.
    change (getFilteredPrData (store (createCharts (updateStats w0))))
      with (getFilteredPrData s). by rewrite Hv.
  - by apply generatePRList_separate.
  - unfold Dashboard.generatePRList, createCharts, createChangesChart,
      createFileDistChart, updateStats.
    cbn [store page withPrList withChangesChart withFileDistChart withStats
         withAnalysisResults withLoading stats fileDistChart changesChart prList
         prCount errorMessages loading analysisResults].
    change (store w0) with s. change (getPrData s) with (read s (prData s)) in Hs.
    change (getFilteredPrData s) with (read s (filteredPrData s)) in Hv.
    unfold getPrData. rewrite Hs, Hv. reflexivity.
Qed.

End Dates.

(** X2: After a load that brings at least one record, each histogram counts
    exactly the fail-to-pass records (its four buckets add up to the
    fail-to-pass counter, not to the total), and the list shows every
    record of the dataset. *)
Theorem loaded_charts_count_fail_to_pass
    (Date_parse : string -> option Z) (files : list File)
    (results : list (list PR)) (w : World) :
  files <> [] ->
  promiseAll (map readFile files) = Some results ->
  concat results <> [] ->
  let p := page (Dashboard.loadFiles Date_parse files w) in
  Arr.total (fileDistChart p) = failToPassPRs (stats p)
  /\ Arr.total (changesChart p) = failToPassPRs (stats p)
  /\ totalPRs (stats p) = Z.of_nat (length (concat results))
  /\ prCount p = totalPRs (stats p)
  /\ prList p ≡ₚ concat results.
Proof.
  intros Hne Hall Hdata p.
  destruct (loadFiles_resolved_nonempty Date_parse files results w Hne Hall Hdata)
    as (_ & _ & _ & Hp).
  subst p. rewrite Hp.
  cbn [stats fileDistChart changesChart prCount prList computeStats
       failToPassPRs totalPRs].
  destruct (fileDistribution_shape (List.filter isFailToPass (concat results))) as [_ ->].
  destruct (changesDistribution_shape (List.filter isFailToPass (concat results))) as [_ ->].
  rewrite sort_length.
  repeat split; try done. apply sort_Permutation.
Qed.

Lemma loaded_charts_count_fail_to_pass_witness :
  let p := page (Dashboard.loadFiles utcParse
                   [Parsed (JObject single); Parsed (JArray [bare; flagged])] initial) in
  Arr.total (fileDistChart p) = failToPassPRs (stats p)
  /\ Arr.total (changesChart p) = failToPassPRs (stats p)
  /\ totalPRs (stats p) = Z.of_nat (length (concat [[single]; [bare; flagged]]))
  /\ prCount p = totalPRs (stats p)
  /\ prList p ≡ₚ concat [[single]; [bare; flagged]].
Proof.
  apply (loaded_charts_count_fail_to_pass utcParse
           [Parsed (JObject single); Parsed (JArray [bare; flagged])]
           [[single]; [bare; flagged]] initial); done.
Defined.

End StatisticsFacts.

(** ** What each bucket counts *)

Module BucketFacts.

Import Js JsMore Dashboard ArrFacts Histograms Sample.

Lemma get_set_ne k k' v o : k <> k' -> Arr.get k (Arr.set k' v o) = Arr.get k o.
Proof.
  intros Hne. induction o as [|[k0 v0] r IH]; simpl.
  - destruct (String.eqb_spec k' k); congruence.
  - destruct (String.eqb_spec k0 k') as [->|]; simpl.
    + destruct (String.eqb_spec k' k); congruence.
    + destruct (String.eqb k0 k); [done|apply IH].
Qed.

Lemma get_increment k k' d :
  k' ∈ d.*1 ->
  Arr.get k (increment k' d)
  = if String.eqb k' k then Some (orZero (Arr.get k d) + 1) else Arr.get k d.
Proof.
  intros Hin. unfold increment.
  destruct (String.eqb_spec k' k) as [->|Hne].
  - by apply get_set_eq, get_is_Some.
  - by apply get_set_ne.
Qed.

(** In a loop that increments one existing counter per element, a counter
    grows by the number of elements that select it. *)
Lemma count_loop_get {A} (range : A -> string) (xs : list A) d k :
  (forall x, range x ∈ d.*1) ->
  k ∈ d.*1 ->
  Arr.get k (fold_left (fun d x => increment (range x) d) xs d)
  = Some (orZero (Arr.get k d) + count (fun x => String.eqb (range x) k) xs).
Proof.
  unfold count. revert d. induction xs as [|x xs IH]; intros d Hrange Hk; simpl.
  - destruct (get_is_Some k d Hk) as [v ->]. simpl. f_equal. lia.
  - rewrite IH.
    + rewrite get_increment by done.
      destruct (String.eqb (range x) k); simpl.
      * f_equal. lia.
      * done.
    + intros y. by rewrite increment_keys.
    + by rewrite increment_keys.
Qed.

Lemma count_ext {A} (f g : A -> bool) (xs : list A) :
  (forall x, f x = g x) -> count f xs = count g xs.
Proof. intros H. unfold count. by rewrite (List.filter_ext f g H). Qed.

Lemma count_map {A B} (h : A -> B) (f : B -> bool) (xs : list A) :
  count f (map h xs) = count (fun x => f (h x)) xs.
Proof.
  unfold count. induction xs as [|x xs IH]; simpl; [done|].
  destruct (f (h x)); simpl; lia.
Qed.

Lemma fileRange_cases c :
  String.eqb (fileRange c) "1-2" = (c <=? 2)
  /\ String.eqb (fileRange c) "3-5" = (2 <? c) && (c <=? 5)
  /\ String.eqb (fileRange c) "6-10" = (5 <? c) && (c <=? 10)
  /\ String.eqb (fileRange c) "10+" = (10 <? c).
Proof.
  unfold fileRange.
  destruct (Z.leb_spec c 2), (Z.leb_spec c 5), (Z.leb_spec c 10),
           (Z.ltb_spec 2 c), (Z.ltb_spec 5 c), (Z.ltb_spec 10 c);
    try lia; done.
Qed.

Lemma changeRange_cases c :
  String.eqb (changeRange c) "1-10" = (c <=? 10)
  /\ String.eqb (changeRange c) "11-50" = (10 <? c) && (c <=? 50)
  /\ String.eqb (changeRange c) "51-100" = (50 <? c) && (c <=? 100)
  /\ String.eqb (changeRange c) "100+" = (100 <? c).
Proof.
  unfold changeRange.
  destruct (Z.leb_spec c 10), (Z.leb_spec c 50), (Z.leb_spec c 100),
           (Z.ltb_spec 10 c), (Z.ltb_spec 50 c), (Z.ltb_spec 100 c);
    try lia; done.
Qed.

(** X3: The file-count histogram: the first bucket counts the records with at
    most 2 files (those with none included), the second those with 3 to
    5, the third those with 6 to 10 and the last those with more than
    10. *)
Theorem fileDistribution_buckets (prs : list PR) :
  fileDistribution prs
  = [("1-2", count (fun pr => fileCount pr <=? 2) prs);
     ("3-5", count (fun pr => (2 <? fileCount pr) && (fileCount pr <=? 5)) prs);
     ("6-10", count (fun pr => (5 <? fileCount pr) && (fileCount pr <=? 10)) prs);
     ("10+", count (fun pr => 10 <? fileCount pr) prs)].
Proof.
  destruct (fileDistribution_shape prs) as [Hkeys _].
  assert (Hget : forall k, k ∈ ["1-2"; "3-5"; "6-10"; "10+"] ->
            Arr.get k (fileDistribution prs)
            = Some (count (fun pr => String.eqb (fileRange (fileCount pr)) k) prs)).
  { intros k Hk. unfold fileDistribution. rewrite count_loop_get.
    - rewrite count_map. f_equal.
      repeat (apply elem_of_cons in Hk as [->|Hk]; [reflexivity|]).
      by apply elem_of_nil in Hk.
    - intros x. apply fileRange_key.
    - done. }
  pose proof (Hget "1-2" ltac:(repeat constructor)) as H1.
  pose proof (Hget "3-5" ltac:(repeat constructor)) as H2.
  pose proof (Hget "6-10" ltac:(repeat constructor)) as H3.
  pose proof (Hget "10+" ltac:(repeat constructor)) as H4.
  rewrite (count_ext _ (fun pr => fileCount pr <=? 2)) in H1
    by (intros pr; apply fileRange_cases).
  rewrite (count_ext _ (fun pr => (2 <? fileCount pr) && (fileCount pr <=? 5))) in H2
    by (intros pr; apply fileRange_cases).
  rewrite (count_ext _ (fun pr => (5 <? fileCount pr) && (fileCount pr <=? 10))) in H3
    by (intros pr; apply fileRange_cases).
  rewrite (count_ext _ (fun pr => 10 <? fileCount pr)) in H4
    by (intros pr; apply fileRange_cases).
  destruct (fileDistribution prs) as [|[k1 v1] [|[k2 v2] [|[k3 v3] [|[k4 v4] [|? ?]]]]];
    try discriminate Hkeys.
  injection Hkeys as -> -> -> ->.
  cbn in H1, H2, H3, H4. congruence.
Qed.

(** X4: The change-volume histogram: the first bucket counts the records whose
    summed changes are at most 10 (zero and negative sums included), the
    second those from 11 to 50, the third those from 51 to 100 and the
    last those above 100. *)
Theorem changesDistribution_buckets (prs : list PR) :
  changesDistribution prs
  = [("1-10", count (fun pr => changeCount pr <=? 10) prs);
     ("11-50", count (fun pr => (10 <? changeCount pr) && (changeCount pr <=? 50)) prs);
     ("51-100", count (fun pr => (50 <? changeCount pr) && (changeCount pr <=? 100)) prs);
     ("100+", count (fun pr => 100 <? changeCount pr) prs)].
Proof.
  destruct (changesDistribution_shape prs) as [Hkeys _].
  assert (Hget : forall k, k ∈ ["1-10"; "11-50"; "51-100"; "100+"] ->
            Arr.get k (changesDistribution prs)
            = Some (count (fun pr => String.eqb (changeRange (changeCount pr)) k) prs)).
  { intros k Hk. unfold changesDistribution. rewrite count_loop_get.
    - rewrite count_map. f_equal.
      repeat (apply elem_of_cons in Hk as [->|Hk]; [reflexivity|]).
      by apply elem_of_nil in Hk.
    - intros x. apply changeRange_key.
    - done. }
  pose proof (Hget "1-10" ltac:(repeat constructor)) as H1.
  pose proof (Hget "11-50" ltac:(repeat constructor)) as H2.
  pose proof (Hget "51-100" ltac:(repeat constructor)) as H3.
  pose proof (Hget "100+" ltac:(repeat constructor)) as H4.
  rewrite (count_ext _ (fun pr => changeCount pr <=? 10)) in H1
    by (intros pr; apply changeRange_cases).
  rewrite (count_ext _ (fun pr => (10 <? changeCount pr) && (changeCount pr <=? 50))) in H2
    by (intros pr; apply changeRange_cases).
  rewrite (count_ext _ (fun pr => (50 <? changeCount pr) && (changeCount pr <=? 100))) in H3
    by (intros pr; apply changeRange_cases).
  rewrite (count_ext _ (fun pr => 100 <? changeCount pr)) in H4
    by (intros pr; apply changeRange_cases).
  destruct (changesDistribution prs) as [|[k1 v1] [|[k2 v2] [|[k3 v3] [|[k4 v4] [|? ?]]]]];
    try discriminate Hkeys.
  injection Hkeys as -> -> -> ->.
  cbn in H1, H2, H3, H4. congruence.
Qed.

End BucketFacts.

(** ** More on the loader and the filter *)

Module StoreFacts.

Import Js JsMore Dashboard DashboardFacts ArrFacts Loader StatisticsFacts Sample.

Lemma promiseAll_resolves (files : list File) :
  Malformed ∉ files ->
  promiseAll (map readFile files) = Some (map fileRecords files).
Proof.
  unfold promiseAll. induction files as [|f files IH]; intros Hok; [done|].
  apply not_elem_of_cons in Hok as [Hf Hfiles].
  cbn [map mapM]. rewrite (IH Hfiles).
  by destruct f as [|[pr|prs]].
Qed.

Section Dates.

Variable Date_parse : string -> option Z.
Variable Date_setHours : Z -> Z -> Z -> Z -> Z -> Z.

Abbreviation byCreatedAtDesc := (Dashboard.byCreatedAtDesc Date_parse).
Abbreviation generatePRList := (Dashboard.generatePRList Date_parse).
Abbreviation analyzeData := (Dashboard.analyzeData Date_parse).
Abbreviation loadFiles := (Dashboard.loadFiles Date_parse).
Abbreviation keeps := (Dashboard.keeps Date_parse Date_setHours).
Abbreviation filtered := (Dashboard.filtered Date_parse Date_setHours).
Abbreviation applyFilters := (Dashboard.applyFilters Date_parse Date_setHours).
Abbreviation reachable := (Dashboard.reachable Date_parse Date_setHours).

(** A resolved load, whatever it brings. *)
Lemma loadFiles_resolved_store files results w :
  files <> [] ->
  promiseAll (map readFile files) = Some results ->
  getPrData (store (loadFiles files w)) = concat results
  /\ getFilteredPrData (store (loadFiles files w))
     = Arr.sort byCreatedAtDesc (concat results).
Proof.
  intros Hne Hall.
  destruct (concat results) as [|pr prs] eqn:Hdata.
  - destruct (loadFiles_resolved_world Date_parse files results w Hne Hall)
      as (s & Hsep & Hs & Hv & ->).
    cbn zeta. cbn [store]. unfold Dashboard.analyzeData. cbn [store].
    rewrite Hs, Hdata. cbn [length Nat.eqb store].
    by rewrite Hs, Hv, Hdata.
  - destruct (loadFiles_resolved_nonempty Date_parse files results w Hne Hall)
      as (H1 & H2 & _); [by rewrite Hdata|].
    by rewrite H1, H2, Hdata.
Qed.

Lemma applyFilters_view inputs w :
  separate (store w) ->
  getPrData (store (applyFilters inputs w)) = getPrData (store w)
  /\ getFilteredPrData (store (applyFilters inputs w))
     = Arr.sort byCreatedAtDesc (filtered inputs (getPrData (store w)))
  /\ prList (page (applyFilters inputs w))
     = Arr.sort byCreatedAtDesc (filtered inputs (getPrData (store w))).
Proof.
  intros Hsep.
  assert (Hsep0 : separate
            (mkStore (heap (store w) ++ [filtered inputs (getPrData (store w))])
                     (prData (store w)) (length (heap (store w))))).
  { destruct Hsep as (H1 & H2 & H3). unfold separate. simpl.
    rewrite length_app. simpl. lia. }
  assert (Hread : read (mkStore (heap (store w) ++ [filtered inputs (getPrData (store w))])
                           (prData (store w)) (length (heap (store w))))
                       (length (heap (store w)))
                  = filtered inputs (getPrData (store w))).
  { unfold read. simpl. by rewrite list_lookup_middle. }
  rewrite applyFilters_unfold. split; [|split].
  - rewrite generatePRList_prData by done.
    unfold getPrData, read. simpl. rewrite lookup_app_l; [done|apply Hsep].
  - rewrite generatePRList_filteredPrData by done. f_equal. exact Hread.
  - unfold Dashboard.generatePRList. cbn [page store prList withPrList filteredPrData].
    f_equal. exact Hread.
Qed.

End Dates.

(** X5: A load whose files all parse replaces the dataset by the records of
    the files, in file order, whatever the store held before; the view
    becomes a rearrangement of that dataset, and when every record has a
    [created_at] that parses it is the stable sort of the dataset,
    descending by [created_at]. *)
Theorem loadFiles_replaces_dataset
    (Date_parse : string -> option Z) (files : list File) (w : World) :
  files <> [] ->
  Malformed ∉ files ->
  getPrData (store (Dashboard.loadFiles Date_parse files w))
  = concat (map fileRecords files)
  /\ getFilteredPrData (store (Dashboard.loadFiles Date_parse files w))
     ≡ₚ getPrData (store (Dashboard.loadFiles Date_parse files w))
  /\ (Forall (Dashboard.validDate Date_parse) (concat (map fileRecords files)) ->
      getFilteredPrData (store (Dashboard.loadFiles Date_parse files w))
      = Arr.sort (Dashboard.byCreatedAtDesc Date_parse)
                 (concat (map fileRecords files))
      /\ StronglySorted (Dashboard.descending Date_parse)
           (getFilteredPrData (store (Dashboard.loadFiles Date_parse files w))))
  /\ errorMessages (page (Dashboard.loadFiles Date_parse files w))
     = errorMessages (page w).
Proof.
  intros Hne Hok.
  pose proof (promiseAll_resolves files Hok) as Hall.
  destruct (loadFiles_resolved_store Date_parse files _ w Hne Hall) as [H1 H2].
  rewrite H1, H2.
  split; [done|]. split; [apply sort_Permutation|].
  split; [intros Hvalid; split; [done|by apply sort_descending]|].
  destruct (loadFiles_resolved_world Date_parse files _ w Hne Hall)
    as (s & _ & Hs & _ & ->).
  cbn zeta. cbn [page errorMessages withAnalysisResults withLoading].
  unfold Dashboard.analyzeData. cbn [store].
  destruct (_ =? _)%nat; reflexivity.
Qed.

Lemma loadFiles_replaces_dataset_witness :
  getPrData (store (Dashboard.loadFiles utcParse
      [Parsed (JObject january); Parsed (JArray [march])] mixed))
  = concat (map fileRecords [Parsed (JObject january); Parsed (JArray [march])])
  /\ getFilteredPrData (store (Dashboard.loadFiles utcParse
      [Parsed (JObject january); Parsed (JArray [march])] mixed))
     ≡ₚ getPrData (store (Dashboard.loadFiles utcParse
      [Parsed (JObject january); Parsed (JArray [march])] mixed))
  /\ (Forall (Dashboard.validDate utcParse)
             (concat (map fileRecords
                        [Parsed (JObject january); Parsed (JArray [march])])) ->
      getFilteredPrData (store (Dashboard.loadFiles utcParse
          [Parsed (JObject january); Parsed (JArray [march])] mixed))
      = Arr.sort (Dashboard.byCreatedAtDesc utcParse)
          (concat (map fileRecords
                     [Parsed (JObject january); Parsed (JArray [march])]))
      /\ StronglySorted (Dashboard.descending utcParse)
           (getFilteredPrData (store (Dashboard.loadFiles utcParse
              [Parsed (JObject january); Parsed (JArray [march])] mixed))))
  /\ errorMessages (page (Dashboard.loadFiles utcParse
      [Parsed (JObject january); Parsed (JArray [march])] mixed))
     = errorMessages (page mixed).
Proof.
  apply (loadFiles_replaces_dataset utcParse
           [Parsed (JObject january); Parsed (JArray [march])] mixed).
  - done.
  - intros H. repeat (apply elem_of_cons in H as [H|H]; [discriminate H|]).
    by apply elem_of_nil in H.
Defined.

(** X6: A load whose files parse but bring no record empties both arrays of
    the store and leaves the counters, the charts and the list on the
    page as they were: [analyzeData] returns before it updates anything. *)
Theorem loadFiles_empty_leaves_page
    (Date_parse : string -> option Z) (files : list File) (w : World) :
  files <> [] ->
  Malformed ∉ files ->
  concat (map fileRecords files) = [] ->
  getPrData (store (Dashboard.loadFiles Date_parse files w)) = []
  /\ getFilteredPrData (store (Dashboard.loadFiles Date_parse files w)) = []
  /\ page (Dashboard.loadFiles Date_parse files w)
     = withAnalysisResults true (withLoading false (page w)).
Proof.
  intros Hne Hok Hempty.
  pose proof (promiseAll_resolves files Hok) as Hall.
  destruct (loadFiles_resolved_store Date_parse files _ w Hne Hall) as [H1 H2].
  rewrite H1, H2, Hempty. repeat split.
  destruct (loadFiles_resolved_world Date_parse files _ w Hne Hall)
    as (s & _ & Hs & _ & ->).
  cbn zeta. cbn [page]. unfold Dashboard.analyzeData. cbn [store].
  rewrite Hs, Hempty. reflexivity.
Qed.

Lemma loadFiles_empty_leaves_page_witness :
  getPrData (store (Dashboard.loadFiles utcParse [Parsed (JArray [])] loaded)) = []
  /\ getFilteredPrData (store (Dashboard.loadFiles utcParse [Parsed (JArray [])] loaded))
     = []
  /\ page (Dashboard.loadFiles utcParse [Parsed (JArray [])] loaded)
     = withAnalysisResults true (withLoading false (page loaded)).
Proof.
  apply (loadFiles_empty_leaves_page utcParse [Parsed (JArray [])] loaded).
  - done.
  - intros H. repeat (apply elem_of_cons in H as [H|H]; [discriminate H|]).
    by apply elem_of_nil in H.
  - reflexivity.
Defined.

End StoreFacts.

(** ** The filtered view over time *)

Module ViewFacts.

Import Js JsMore Dashboard DashboardFacts ArrFacts Loader StatisticsFacts StoreFacts Sample.

Lemma reachable_view_submseteq
    (Date_parse : string -> option Z) (Date_setHours : Z -> Z -> Z -> Z -> Z -> Z)
    (w : World) :
  reachable Date_parse Date_setHours w ->
  getFilteredPrData (store w) ⊆+ getPrData (store w).
Proof.
  intros Hreach.
  induction Hreach as [|files w Hreach IH|inputs w Hreach IH].
  - done.
  - destruct files as [|f files]; [exact IH|].
    destruct (promiseAll (map readFile (f :: files))) as [results|] eqn:Hall.
    + destruct (loadFiles_resolved_store Date_parse (f :: files) results w)
        as [-> ->]; [done|done|].
      apply Permutation_submseteq, sort_Permutation.
    + apply promiseAll_rejects in Hall.
      assert (Hstore : store (Dashboard.loadFiles Date_parse (f :: files) w) = store w).
      { unfold Dashboard.loadFiles. cbn [length Nat.eqb].
        by rewrite (proj2 (promiseAll_rejects (f :: files)) Hall). }
      by rewrite Hstore.
  - pose proof (reachable_separate _ _ _ Hreach) as Hsep.
    destruct (applyFilters_view Date_parse Date_setHours inputs w Hsep)
      as (-> & -> & _).
    rewrite sort_Permutation.
    apply sublist_submseteq, FilterEngine.filter_sublist.
Qed.

(** X7: In every state the page can reach, the stored view is made of records
    of the dataset, each at most as often as the dataset has it; so it is
    never longer than the dataset. *)
Theorem view_within_dataset
    (Date_parse : string -> option Z) (Date_setHours : Z -> Z -> Z -> Z -> Z -> Z)
    (w : World) :
  reachable Date_parse Date_setHours w ->
  getFilteredPrData (store w) ⊆+ getPrData (store w)
  /\ (forall pr, pr ∈ getFilteredPrData (store w) -> pr ∈ getPrData (store w))
  /\ (length (getFilteredPrData (store w)) <= length (getPrData (store w)))%nat.
Proof.
  intros Hreach.
  pose proof (reachable_view_submseteq Date_parse Date_setHours w Hreach) as H.
  split; [done|]. split.
  - intros pr Hpr. by apply (elem_of_submseteq _ _ _ Hpr).
  - by apply submseteq_length.
Qed.

Lemma view_within_dataset_witness :
  getFilteredPrData (store mixed) ⊆+ getPrData (store mixed)
  /\ (forall pr, pr ∈ getFilteredPrData (store mixed) -> pr ∈ getPrData (store mixed))
  /\ (length (getFilteredPrData (store mixed)) <= length (getPrData (store mixed)))%nat.
Proof.
  apply (view_within_dataset utcParse utcSetHours mixed).
  apply reach_loadFiles, reach_initial.
Defined.

(** X8: Filters do not accumulate: [applyFilters] always starts from the full
    dataset, which it leaves as it is, so the view and the list after it
    depend on the current controls only, and applying the same controls
    again changes nothing in them. *)
Theorem applyFilters_starts_from_dataset
    (Date_parse : string -> option Z) (Date_setHours : Z -> Z -> Z -> Z -> Z -> Z)
    (earlier inputs : FilterInputs) (w : World) :
  reachable Date_parse Date_setHours w ->
  let once := applyFilters Date_parse Date_setHours inputs w in
  let after := applyFilters Date_parse Date_setHours inputs
                 (applyFilters Date_parse Date_setHours earlier w) in
  getPrData (store after) = getPrData (store w)
  /\ getFilteredPrData (store after) = getFilteredPrData (store once)
  /\ prList (page after) = prList (page once)
  /\ prCount (page after) = prCount (page once)
  /\ getFilteredPrData (store once)
     ≡ₚ filtered Date_parse Date_setHours inputs (getPrData (store w)).
Proof.
  intros Hreach once after.
  pose proof (reachable_separate _ _ _ Hreach) as Hsep.
  pose proof (applyFilters_separate Date_parse Date_setHours earlier w Hsep) as Hsep'.
  destruct (applyFilters_view Date_parse Date_setHours inputs w Hsep) as (P1 & V1 & L1).
  destruct (applyFilters_view Date_parse Date_setHours earlier w Hsep) as (P2 & _ & _).
  destruct (applyFilters_view Date_parse Date_setHours inputs _ Hsep') as (P3 & V3 & L3).
  assert (C : forall i v, prCount (page (applyFilters Date_parse Date_setHours i v))
                          = Z.of_nat (length (prList (page (applyFilters Date_parse
                                                              Date_setHours i v)))))
    by reflexivity.
  subst once after.
  rewrite !C, P3, V3, L3, P2, V1, L1.
  repeat split. apply sort_Permutation.
Qed.

Lemma applyFilters_starts_from_dataset_witness :
  let once := applyFilters utcParse utcSetHours noFilter mixed in
  let after := applyFilters utcParse utcSetHours noFilter
                 (applyFilters utcParse utcSetHours oneDay mixed) in
  getPrData (store after) = getPrData (store mixed)
  /\ getFilteredPrData (store after) = getFilteredPrData (store once)
  /\ prList (page after) = prList (page once)
  /\ prCount (page after) = prCount (page once)
  /\ getFilteredPrData (store once)
     ≡ₚ filtered utcParse utcSetHours noFilter (getPrData (store mixed)).
Proof.
  apply (applyFilters_starts_from_dataset utcParse utcSetHours oneDay noFilter mixed).
  apply reach_loadFiles, reach_initial.
Defined.

End ViewFacts.

(** ** What the view holds after filtering *)

Module FilterFacts.

Import Js JsMore Letters Dashboard DashboardFacts ArrFacts StoreFacts Sample.

Lemma nat_of_lowerAscii c :
  nat_of_ascii (lowerAscii c)
  = if isUpper c then (nat_of_ascii c + 32)%nat else nat_of_ascii c.
Proof.
  unfold lowerAscii, isUpper.
  destruct (Nat.leb 65 (nat_of_ascii c) && Nat.leb (nat_of_ascii c) 90)%bool eqn:E;
    [|done].
  apply andb_prop in E as [E1 E2]. apply Nat.leb_le in E1, E2.
  apply nat_ascii_embedding. lia.
Qed.

Lemma nat_of_ascii_inj c d : nat_of_ascii c = nat_of_ascii d -> c = d.
Proof.
  intros H. rewrite <- (ascii_nat_embedding c), <- (ascii_nat_embedding d).
  by rewrite H.
Qed.

Lemma isUpper_spec c :
  isUpper c = true <-> (65 <= nat_of_ascii c <= 90)%nat.
Proof.
  unfold isUpper. rewrite andb_true_iff, !Nat.leb_le. done.
Qed.

Lemma lowerAscii_sameLetter c d :
  lowerAscii c = lowerAscii d <-> sameLetter c d = true.
Proof.
  unfold sameLetter, smallOf.
  rewrite !orb_true_iff, !andb_true_iff, !Nat.eqb_eq, !isUpper_spec.
  split.
  - intros H. apply (f_equal nat_of_ascii) in H.
    rewrite !nat_of_lowerAscii in H.
    destruct (isUpper c) eqn:Ec, (isUpper d) eqn:Ed.
    + left. left. apply Ascii.eqb_eq, nat_of_ascii_inj. lia.
    + apply isUpper_spec in Ec. left. right. split; [done|lia].
    + apply isUpper_spec in Ed. right. split; [done|lia].
    + left. left. apply Ascii.eqb_eq, nat_of_ascii_inj. lia.
  - intros H. apply nat_of_ascii_inj. rewrite !nat_of_lowerAscii.
    destruct H as [[H|[Hc H]]|[Hd H]].
    + apply Ascii.eqb_eq in H as ->. done.
    + assert (isUpper c = true) as -> by (by apply isUpper_spec).
      assert (isUpper d = false) as ->; [|lia].
      apply not_true_is_false. rewrite isUpper_spec. lia.
    + assert (isUpper d = true) as -> by (by apply isUpper_spec).
      assert (isUpper c = false) as ->; [|lia].
      apply not_true_is_false. rewrite isUpper_spec. lia.
Qed.

Lemma toLowerCase_sameUpToCase a b :
  toLowerCase a = toLowerCase b <-> sameUpToCase a b = true.
Proof.
  revert b. induction a as [|c a IH]; intros [|d b]; cbn [toLowerCase sameUpToCase];
    try done.
  rewrite andb_true_iff, <- IH, <- lowerAscii_sameLetter. split.
  - by intros [= -> ->].
  - by intros [-> ->].
Qed.

Lemma toLowerCase_hasUpper s : hasUpper (toLowerCase s) = false.
Proof.
  induction s as [|c s IH]; [done|]. cbn [toLowerCase hasUpper]. rewrite IH.
  rewrite orb_false_r. apply not_true_is_false. rewrite isUpper_spec.
  rewrite nat_of_lowerAscii. destruct (isUpper c) eqn:E.
  - apply isUpper_spec in E. lia.
  - intros H. apply isUpper_spec in H. congruence.
Qed.

Lemma toLowerCase_fixed s : hasUpper s = false -> toLowerCase s = s.
Proof.
  induction s as [|c s IH]; [done|]. cbn [toLowerCase hasUpper].
  intros [Hc Hs]%orb_false_elim. rewrite IH by done. f_equal.
  apply nat_of_ascii_inj. rewrite nat_of_lowerAscii. by rewrite Hc.
Qed.

Lemma toLowerCase_isAscii s : isAscii s = true -> isAscii (toLowerCase s) = true.
Proof.
  induction s as [|c s IH]; [done|]. cbn [toLowerCase isAscii].
  intros [Hc Hs]%andb_prop. rewrite IH by done. rewrite andb_true_r.
  unfold isAsciiChar in *. apply Nat.ltb_lt in Hc. apply Nat.ltb_lt.
  rewrite nat_of_lowerAscii. destruct (isUpper c) eqn:E; [|done].
  apply isUpper_spec in E. lia.
Qed.

Lemma sameUpToCase_toLowerCase s : sameUpToCase s (toLowerCase s) = true.
Proof.
  apply toLowerCase_sameUpToCase. symmetry.
  apply toLowerCase_fixed, toLowerCase_hasUpper.
Qed.

Lemma matchesRepo_iff (selected : list string) (pr : PR) :
  selected <> [] ->
  matchesRepo selected pr = true
  <-> exists name, repo pr = Some name /\ toLowerCase name ∈ selected.
Proof.
  intros Hne.
  assert (Hlen : (length selected =? 0)%nat = false) by (by destruct selected).
  unfold matchesRepo. rewrite Hlen. cbn [orb].
  destruct (repo pr) as [name|]; simpl.
  - rewrite bool_decide_eq_true. split; [by exists name|].
    by intros (? & [= <-] & ?).
  - split; [done|]. by intros (? & ? & _).
Qed.

Lemma matchesRepo_sameUpToCase (selected : list string) (pr : PR) :
  selected <> [] ->
  matchesRepo selected pr = true
  <-> exists name v,
        repo pr = Some name /\ v ∈ selected /\ hasUpper v = false
        /\ sameUpToCase name v = true.
Proof.
  intros Hne. rewrite (matchesRepo_iff selected pr Hne). split.
  - intros (name & Hr & Hin). exists name, (toLowerCase name).
    split; [done|]. split; [done|].
    split; [apply toLowerCase_hasUpper|apply sameUpToCase_toLowerCase].
  - intros (name & v & Hr & Hin & Hv & Hsame). exists name. split; [done|].
    apply toLowerCase_sameUpToCase in Hsame.
    by rewrite Hsame, (toLowerCase_fixed v Hv).
Qed.

(** X9: The repository condition for a record whose [repo] is ASCII text,
    once a repository is checked: the record must have a [repo], and one
    of the checked values must be free of capital letters and equal to
    the name up to the case of its letters.  So a record without [repo]
    is excluded, a checked value with a capital letter selects nothing,
    and records whose names differ only in case are treated alike. *)
Theorem matchesRepo_checked (selected : list string) (pr : PR) :
  selected <> [] ->
  isAsciiOpt (repo pr) = true ->
  (matchesRepo selected pr = true
   <-> exists name v,
         repo pr = Some name /\ v ∈ selected /\ hasUpper v = false
         /\ sameUpToCase name v = true)
  /\ (repo pr = None -> matchesRepo selected pr = false)
  /\ (forall other name name',
        repo pr = Some name -> repo other = Some name' -> isAscii name' = true ->
        sameUpToCase name name' = true ->
        matchesRepo selected other = matchesRepo selected pr)
  /\ (forall name v,
        repo pr = Some name -> hasUpper v = false -> sameUpToCase name v = true ->
        matchesRepo [v] pr = true)
  /\ (forall v, hasUpper v = true -> matchesRepo [v] pr = false).
Proof.
  intros Hne _.
  split; [by apply matchesRepo_sameUpToCase|].
  split; [|split; [|split]].
  - intros Hr. apply not_true_is_false. rewrite (matchesRepo_iff selected pr Hne).
    intros (name & Hname & _). congruence.
  - intros other name name' Hr Hr' _ Hsame.
    apply toLowerCase_sameUpToCase in Hsame.
    unfold matchesRepo. rewrite Hr, Hr'. simpl. by rewrite Hsame.
  - intros name v Hr Hv Hsame.
    apply (matchesRepo_sameUpToCase [v] pr); [done|].
    exists name, v. split; [done|]. split; [by constructor|done].
  - intros v Hv. apply not_true_is_false.
    rewrite (matchesRepo_sameUpToCase [v] pr) by done.
    intros (name & v' & _ & Hin & Hv' & _).
    apply list_elem_of_singleton in Hin as ->. congruence.
Qed.

Lemma matchesRepo_checked_witness :
  (matchesRepo ["a/b"; "org/app"] cased = true
   <-> exists name v,
         repo cased = Some name /\ v ∈ ["a/b"; "org/app"] /\ hasUpper v = false
         /\ sameUpToCase name v = true)
  /\ (repo cased = None -> matchesRepo ["a/b"; "org/app"] cased = false)
  /\ (forall other name name',
        repo cased = Some name -> repo other = Some name' -> isAscii name' = true ->
        sameUpToCase name name' = true ->
        matchesRepo ["a/b"; "org/app"] other = matchesRepo ["a/b"; "org/app"] cased)
  /\ (forall name v,
        repo cased = Some name -> hasUpper v = false -> sameUpToCase name v = true ->
        matchesRepo [v] cased = true)
  /\ (forall v, hasUpper v = true -> matchesRepo [v] cased = false).
Proof.
  apply (matchesRepo_checked ["a/b"; "org/app"] cased); [done|reflexivity].
Defined.

(** The record of [Org/App] is selected by the value [org/app] and by
    no spelling of it that has a capital letter. *)
Example matchesRepo_cased :
  matchesRepo ["org/app"] cased = true
  /\ matchesRepo ["Org/App"] cased = false
  /\ matchesRepo ["a/b"] cased = false
  /\ sameUpToCase "Org/App" "org/app" = true
  /\ sameUpToCase "Org/App" "org-app" = false.
Proof. repeat split; vm_compute; reflexivity. Qed.

(** X10: After [applyFilters], for a query and a record whose
    [problem_statement] and [repo] are ASCII text, the record is in the
    stored view exactly when it is in the dataset and the filter
    callback keeps it; a record of the view has a [problem_statement]
    that contains the lower-cased query, is a fail-to-pass record when
    that box is checked, and has a [repo] that one of the checked values
    spells in small letters when any is checked. *)
Theorem applyFilters_view_members
    (Date_parse : string -> option Z) (Date_setHours : Z -> Z -> Z -> Z -> Z -> Z)
    (inputs : FilterInputs) (w : World) (pr : PR) :
  reachable Date_parse Date_setHours w ->
  isAscii (prFilter inputs) = true ->
  isAsciiOpt (problem_statement pr) = true ->
  isAsciiOpt (repo pr) = true ->
  (pr ∈ getFilteredPrData (store (applyFilters Date_parse Date_setHours inputs w))
   <-> pr ∈ getPrData (store w) /\ keeps Date_parse Date_setHours inputs pr = true)
  /\ (pr ∈ getFilteredPrData (store (applyFilters Date_parse Date_setHours inputs w)) ->
      (exists text,
          problem_statement pr = Some text
          /\ includes (toLowerCase text) (toLowerCase (prFilter inputs)) = true)
      /\ (failToPassFilter inputs = true -> truthy (FAIL_TO_PASS pr) = true)
      /\ (selectedRepos inputs <> [] ->
          exists name v,
            repo pr = Some name /\ v = toLowerCase name
            /\ v ∈ selectedRepos inputs /\ hasUpper v = false
            /\ sameUpToCase name v = true)
      /\ matchesDate Date_parse Date_setHours (startDate inputs) (endDate inputs) pr
         = true).
Proof.
  intros Hreach _ _ _.
  pose proof (reachable_separate _ _ _ Hreach) as Hsep.
  destruct (applyFilters_view Date_parse Date_setHours inputs w Hsep) as (_ & -> & _).
  assert (Hiff : pr ∈ Arr.sort (byCreatedAtDesc Date_parse)
                        (filtered Date_parse Date_setHours inputs (getPrData (store w)))
                 <-> pr ∈ getPrData (store w)
                     /\ keeps Date_parse Date_setHours inputs pr = true).
  { rewrite sort_Permutation. unfold filtered.
    rewrite !list_elem_of_In. apply filter_In. }
  split; [done|].
  intros [_ Hkeep]%Hiff. unfold keeps in Hkeep.
  apply andb_prop in Hkeep as [Hkeep Hftp].
  apply andb_prop in Hkeep as [Hkeep Hdate].
  apply andb_prop in Hkeep as [Htitle Hrepo].
  split; [|split; [|split]].
  - unfold matchesTitle in Htitle.
    destruct (problem_statement pr) as [text|]; [|done]. by exists text.
  - intros Hchecked. unfold matchesFailToPass in Hftp. by rewrite Hchecked in Hftp.
  - intros Hsel. apply (matchesRepo_iff _ pr Hsel) in Hrepo as (name & Hr & Hin).
    exists name, (toLowerCase name). split; [done|]. split; [done|].
    split; [done|].
    split; [apply toLowerCase_hasUpper|apply sameUpToCase_toLowerCase].
  - done.
Qed.

Lemma applyFilters_view_members_witness :
  (march ∈ getFilteredPrData (store (applyFilters utcParse utcSetHours oneDay mixed))
   <-> march ∈ getPrData (store mixed) /\ keeps utcParse utcSetHours oneDay march = true)
  /\ (march ∈ getFilteredPrData (store (applyFilters utcParse utcSetHours oneDay mixed)) ->
      (exists text,
          problem_statement march = Some text
          /\ includes (toLowerCase text) (toLowerCase (prFilter oneDay)) = true)
      /\ (failToPassFilter oneDay = true -> truthy (FAIL_TO_PASS march) = true)
      /\ (selectedRepos oneDay <> [] ->
          exists name v,
            repo march = Some name /\ v = toLowerCase name
            /\ v ∈ selectedRepos oneDay /\ hasUpper v = false
            /\ sameUpToCase name v = true)
      /\ matchesDate utcParse utcSetHours (startDate oneDay) (endDate oneDay) march
         = true).
Proof.
  apply (applyFilters_view_members utcParse utcSetHours oneDay mixed march);
    [apply reach_loadFiles, reach_initial|reflexivity|reflexivity|reflexivity].
Defined.

End FilterFacts.

(** ** More on the diff formatter *)

Module FormatterFacts.

Import Js JsMore Utils Text UtilsFacts DiffView Sample.

(** X11: How a line is classified, by its first characters: the addition style
    exactly for a leading [+], the removal style exactly for a leading
    [-], the metadata style exactly for a leading [@@] (so never for a
    line that starts with [+++] or [---]); and the text handed on is the
    line without at most one leading character, a [+], a [-] or a
    space. *)
Theorem classifyLine_by_prefix (line : string) :
  ((classifyLine line).1 = "diff-add" <-> startsWith line "+" = true)
  /\ ((classifyLine line).1 = "diff-remove" <-> startsWith line "-" = true)
  /\ ((classifyLine line).1 = "diff-meta" <-> startsWith line "@@" = true)
  /\ (exists stripped,
        stripped ∈ ["+"; "-"; " "; EmptyString]
        /\ line = stripped ++ (classifyLine line).2).
Proof.
  destruct line as [|c rest].
  { vm_compute. repeat split; try discriminate.
    exists EmptyString. split; [|done]. repeat constructor. }
  unfold classifyLine. cbn [startsWith substring].
  destruct (Ascii.eqb_spec "+" c) as [<-|Hplus]; cbn [andb fst snd].
  { repeat split; try discriminate; try done.
    exists "+". split; [repeat constructor|done]. }
  destruct (Ascii.eqb_spec "-" c) as [<-|Hminus]; cbn [andb fst snd].
  { repeat split; try discriminate; try done.
    exists "-". split; [repeat constructor|done]. }
  destruct (Ascii.eqb_spec "@" c) as [<-|Hat]; cbn [andb orb fst snd].
  - destruct rest as [|d rest]; cbn [startsWith andb orb fst snd].
    + repeat split; try discriminate.
      exists EmptyString. split; [repeat constructor|done].
    + destruct (Ascii.eqb_spec "@" d) as [<-|Hat2]; cbn [andb orb fst snd].
      * repeat split; try discriminate; try done.
        exists EmptyString. split; [repeat constructor|done].
      * repeat split; try discriminate.
        exists EmptyString. split; [repeat constructor|done].
  - destruct (Ascii.eqb_spec " " c) as [<-|Hsp]; cbn [andb orb fst snd].
    + repeat split; try discriminate.
      exists " ". split; [repeat constructor|done].
    + repeat split; try discriminate.
      exists EmptyString. split; [repeat constructor|done].
Qed.

Lemma split_no_sep sep s : mentions sep s = false -> split sep s = [s].
Proof.
  induction s as [|c s IH]; cbn [mentions split]; [done|].
  intros [Hc Hs]%orb_false_elim. by rewrite Hc, (IH Hs).
Qed.

Lemma last_headCons u (l : list string) d :
  (2 <= length l)%nat -> List.last (headCons u l) d = List.last l d.
Proof. destruct l as [|a [|b l]]; simpl; intros; try lia. done. Qed.

Lemma split_two_pieces sep u v : (2 <= length (split sep (u ++ String sep v)))%nat.
Proof.
  induction u as [|c u IH].
  - change (EmptyString ++ String sep v) with (String sep v). rewrite split_sep.
    pose proof (split_nonempty sep v). destruct (split sep v); [done|simpl; lia].
  - change (String c u ++ String sep v) with (String c (u ++ String sep v)).
    destruct (Ascii.eqb c sep) eqn:E.
    + apply Ascii.eqb_eq in E as ->. rewrite split_sep. simpl. lia.
    + rewrite split_cons by done.
      destruct (split sep (u ++ String sep v)) as [|a [|b l]]; simpl in *; lia.
Qed.

(** The last piece of a text is what follows its last separator. *)
Lemma lastPiece_app sep u v :
  lastPiece sep (u ++ String sep v) = lastPiece sep v.
Proof.
  unfold lastPiece. induction u as [|c u IH].
  - change (EmptyString ++ String sep v) with (String sep v). rewrite split_sep.
    pose proof (split_nonempty sep v). by destruct (split sep v).
  - change (String c u ++ String sep v) with (String c (u ++ String sep v)).
    destruct (Ascii.eqb c sep) eqn:E.
    + apply Ascii.eqb_eq in E as ->. rewrite split_sep, <- IH.
      pose proof (split_nonempty sep (u ++ String sep v)).
      by destruct (split sep (u ++ String sep v)).
    + rewrite split_cons by done.
      rewrite last_headCons by apply split_two_pieces. apply IH.
Qed.

Lemma lastPiece_no_sep sep s : mentions sep s = false -> lastPiece sep s = s.
Proof. intros H. unfold lastPiece. by rewrite split_no_sep. Qed.

Lemma lastPiece_extension name ext :
  mentions "." ext = false -> lastPiece "." (name ++ "." ++ ext) = ext.
Proof.
  intros H. change ("." ++ ext) with (String "." ext).
  by rewrite lastPiece_app, lastPiece_no_sep.
Qed.

Lemma getLanguageFromFilename_unfold s :
  getLanguageFromFilename (Some s)
  = if negb (truthy (Some s)) then "plaintext"
    else
      let extension := lastPiece "." s in
      if String.eqb extension "py" then "python"
      else if String.eqb extension "js" then "javascript"
      else if (String.eqb extension "cpp" || String.eqb extension "cc"
               || String.eqb extension "h")%bool then "cpp"
      else "plaintext".
Proof. reflexivity. Qed.

Lemma truthy_app_dot name ext : truthy (Some (name ++ "." ++ ext)) = true.
Proof. by destruct name. Qed.

(** X12: The language is chosen by what follows the last dot of the file name,
    whatever comes before it: [py] gives Python, [js] JavaScript, [cpp],
    [cc] and [h] C++, and any other extension plain text.  A name
    without a dot is its own extension, and a missing or empty name gives
    plain text. *)
Theorem getLanguageFromFilename_by_extension (name : string) :
  getLanguageFromFilename (Some (name ++ ".py")) = "python"
  /\ getLanguageFromFilename (Some (name ++ ".js")) = "javascript"
  /\ getLanguageFromFilename (Some (name ++ ".cpp")) = "cpp"
  /\ getLanguageFromFilename (Some (name ++ ".cc")) = "cpp"
  /\ getLanguageFromFilename (Some (name ++ ".h")) = "cpp"
  /\ (forall ext,
        mentions "." ext = false ->
        ext ∉ ["py"; "js"; "cpp"; "cc"; "h"] ->
        getLanguageFromFilename (Some (name ++ "." ++ ext)) = "plaintext")
  /\ (forall ext,
        mentions "." ext = false ->
        ext <> EmptyString ->
        getLanguageFromFilename (Some ext)
        = getLanguageFromFilename (Some (name ++ "." ++ ext)))
  /\ getLanguageFromFilename None = "plaintext"
  /\ getLanguageFromFilename (Some EmptyString) = "plaintext"
  /\ getLanguageFromFilename (Some name) ∈ ["python"; "javascript"; "cpp"; "plaintext"].
Proof.
  assert (Hext : forall ext, mentions "." ext = false ->
            getLanguageFromFilename (Some (name ++ "." ++ ext))
            = if String.eqb ext "py" then "python"
              else if String.eqb ext "js" then "javascript"
              else if (String.eqb ext "cpp" || String.eqb ext "cc" || String.eqb ext "h")%bool
                   then "cpp" else "plaintext").
  { intros ext H. rewrite getLanguageFromFilename_unfold, truthy_app_dot.
    cbn [negb]. cbn zeta. by rewrite lastPiece_extension. }
  repeat split.
  - apply (Hext "py"). reflexivity.
  - apply (Hext "js"). reflexivity.
  - apply (Hext "cpp"). reflexivity.
  - apply (Hext "cc"). reflexivity.
  - apply (Hext "h"). reflexivity.
  - intros ext Hdot Hother. rewrite (Hext ext Hdot).
    destruct (String.eqb_spec ext "py") as [->|]; [exfalso; apply Hother; repeat constructor|].
    destruct (String.eqb_spec ext "js") as [->|]; [exfalso; apply Hother; repeat constructor|].
    destruct (String.eqb_spec ext "cpp") as [->|]; [exfalso; apply Hother; repeat constructor|].
    destruct (String.eqb_spec ext "cc") as [->|]; [exfalso; apply Hother; repeat constructor|].
    destruct (String.eqb_spec ext "h") as [->|]; [exfalso; apply Hother; repeat constructor|].
    reflexivity.
  - intros ext Hdot Hne. rewrite (Hext ext Hdot), getLanguageFromFilename_unfold.
    assert (Ht : truthy (Some ext) = true) by (by destruct ext).
    rewrite Ht. cbn [negb]. cbn zeta. by rewrite lastPiece_no_sep.
  - rewrite getLanguageFromFilename_unfold. cbn zeta.
    destruct (negb _); [repeat constructor|].
    repeat (case_match; [repeat constructor|]). repeat constructor.
Qed.

Section Formatter.

Variable hljs_highlight : string -> string -> string.

Lemma truthy_orString v d : d <> EmptyString -> truthy (Some (orString v d)) = true.
Proof.
  intros Hd. unfold orString. destruct (truthy v) eqn:E.
  - destruct v as [s|]; [|done]. exact E.
  - by destruct d.
Qed.

(** X13: The diff view of a record: the notice for a missing or empty list of
    files, and otherwise one container per file, in order.  The text of a
    container always goes through the line formatter: a file without
    [patch] shows the placeholder sentence as one context line, handed to
    the highlighter of the file's language like any line of code. *)
Theorem generateDiffView_containers (files : list FileChange.t) (file : FileChange.t) :
  generateDiffView hljs_highlight None = NoChanges
  /\ generateDiffView hljs_highlight (Some []) = NoChanges
  /\ (files <> [] ->
      generateDiffView hljs_highlight (Some files)
      = Containers (map (container hljs_highlight) files))
  /\ map header (containers (generateDiffView hljs_highlight (Some files)))
     = map FileChange.filename files
  /\ content (container hljs_highlight file)
     = concatMap
         (fun l => renderLine hljs_highlight
                     (getLanguageFromFilename (Some (FileChange.filename file)))
                     (escapeHtml l))
         (split LF (orString (FileChange.patch file) "No patch content available"))
  /\ (truthy (FileChange.patch file) = false ->
      content (container hljs_highlight file)
      = span EmptyString
             (highlight hljs_highlight
                        (getLanguageFromFilename (Some (FileChange.filename file)))
                        "No patch content available")).
Proof.
  split; [done|]. split; [done|]. split; [by destruct files|].
  split.
  { destruct files as [|f fs]; [done|]. cbn [generateDiffView containers].
    rewrite map_map. reflexivity. }
  assert (Hcontent : forall p, truthy (Some p) = true ->
            formatAndHighlightPatch hljs_highlight (Some p)
              (getLanguageFromFilename (Some (FileChange.filename file)))
            = concatMap
                (fun l => renderLine hljs_highlight
                            (getLanguageFromFilename (Some (FileChange.filename file)))
                            (escapeHtml l))
                (split LF p)).
  { intros p Hp. rewrite formatAndHighlightPatch_lines by done.
    by rewrite fold_append. }
  split.
  - cbn [container content]. apply Hcontent. by apply truthy_orString.
  - intros Hfalsy. cbn [container content]. unfold orString. rewrite Hfalsy.
    rewrite Hcontent by done.
    change (split LF "No patch content available") with ["No patch content available"].
    unfold concatMap. cbn [foldr]. rewrite append_nil_r. reflexivity.
Qed.

End Formatter.

End FormatterFacts.

(** ** The detail modal *)

Module ModalFacts.

Import Js JsMore Dashboard DiffView Detail Sample.

Lemma setViewFontSize_sizes size v :
  Forall (fun s => s = Some size) (map fontSize (containers (setViewFontSize size v))).
Proof.
  destruct v as [|cs]; [constructor|]. cbn [setViewFontSize containers].
  rewrite map_map. cbn [fontSize]. induction cs; by constructor.
Qed.

Lemma setViewFontSize_twice a b v :
  setViewFontSize a (setViewFontSize b v) = setViewFontSize a v.
Proof.
  destruct v as [|cs]; [done|]. cbn [setViewFontSize]. f_equal.
  rewrite map_map. reflexivity.
Qed.

Lemma setViewFontSize_same size v :
  Forall (fun s => s = Some size) (map fontSize (containers v)) ->
  setViewFontSize size v = v.
Proof.
  destruct v as [|cs]; [done|]. cbn [setViewFontSize containers]. intros H. f_equal.
  induction cs as [|c cs IH]; [done|].
  cbn [map] in *. apply Forall_cons in H as [Hc Hcs].
  rewrite (IH Hcs). f_equal. destruct c. cbn in *. by rewrite Hc.
Qed.

Lemma updateFontSize_sizes m :
  Forall (fun s => s = Some (currentFontSize m)) (fontSizes (updateFontSize m)).
Proof.
  unfold fontSizes, updateFontSize. cbn [body currentFontSize].
  destruct (body m) as [b|]; [|constructor]. cbn [fmap option_fmap option_map].
  cbn [codeChanges testChanges]. apply Forall_app. split.
  - apply setViewFontSize_sizes.
  - destruct (testChanges b) as [v|]; [|constructor]. apply setViewFontSize_sizes.
Qed.

Lemma updateFontSize_inSync m :
  inSync m -> updateFontSize m = m.
Proof.
  intros [_ H]. unfold updateFontSize. destruct m as [sh [b|] size]; [|done].
  cbn [shown body currentFontSize fmap option_fmap option_map] in *.
  unfold fontSizes in H. cbn [body] in H. apply Forall_app in H as [H1 H2].
  f_equal. f_equal. destruct b as [t d f c a dl code test res].
  cbn [modalTitle description filesTile changesTile additionsTile deletionsTile
       codeChanges testChanges testResults] in *.
  rewrite (setViewFontSize_same size code H1). f_equal.
  destruct test as [v|]; [|done]. cbn in *. by rewrite (setViewFontSize_same size v H2).
Qed.

Lemma updateFontSize_resize sh b old size :
  inSync (mkModal sh b old) ->
  10 <= size <= 24 ->
  inSync (updateFontSize (mkModal sh b size))
  /\ updateFontSize (mkModal sh (body (updateFontSize (mkModal sh b size))) old)
     = mkModal sh b old.
Proof.
  intros Hold Hsize. split.
  - split; [done|]. apply (updateFontSize_sizes (mkModal sh b size)).
  - transitivity (updateFontSize (mkModal sh b old));
      [|by apply updateFontSize_inSync].
    unfold updateFontSize. cbn [shown body currentFontSize].
    f_equal. destruct b as [b|]; [|done].
    cbn [fmap option_fmap option_map]. f_equal.
    cbn [modalTitle description filesTile changesTile additionsTile deletionsTile
         codeChanges testChanges testResults].
    rewrite setViewFontSize_twice. f_equal.
    destruct (testChanges b); [|done]. cbn. by rewrite setViewFontSize_twice.
Qed.

Section Renderers.

Variable marked_parse : string -> string.
Variable hljs_highlight : string -> string -> string.

Abbreviation openPRDetail := (Detail.openPRDetail marked_parse hljs_highlight).
Abbreviation renderBody := (Detail.renderBody marked_parse hljs_highlight).
Abbreviation reachable := (Detail.reachable marked_parse hljs_highlight).
Abbreviation step := (Detail.step marked_parse hljs_highlight).

Lemma openPRDetail_inSync index prs m m' :
  openPRDetail index prs m = Some m' -> inSync m'.
Proof.
  unfold Detail.openPRDetail. destruct (at_ prs index) as [pr|]; [|done].
  intros [= <-]. split; [cbn; lia|].
  apply (updateFontSize_sizes (mkModal true (Some (renderBody pr)) 14)).
Qed.

Lemma increaseFontSize_inSync m : inSync m -> inSync (increaseFontSize m).
Proof.
  intros Hm. unfold increaseFontSize.
  destruct (Z.ltb_spec (currentFontSize m) 24); [|done].
  destruct m as [sh b size]. cbn [shown body currentFontSize] in *.
  apply (updateFontSize_resize sh b size (size + 1) Hm). destruct Hm as [? _]. cbn in *. lia.
Qed.

Lemma decreaseFontSize_inSync m : inSync m -> inSync (decreaseFontSize m).
Proof.
  intros Hm. unfold decreaseFontSize.
  destruct (Z.ltb_spec 10 (currentFontSize m)); [|done].
  destruct m as [sh b size]. cbn [shown body currentFontSize] in *.
  apply (updateFontSize_resize sh b size (size - 1) Hm). destruct Hm as [? _]. cbn in *. lia.
Qed.

Lemma reachable_inSync m : reachable m -> inSync m.
Proof.
  induction 1 as [|m m' _ IH Hstep].
  - split; [cbn; lia|constructor].
  - destruct Hstep as [index prs m m' Hopen|m|m|m].
    + by apply (openPRDetail_inSync index prs m).
    + exact IH.
    + by apply increaseFontSize_inSync.
    + by apply decreaseFontSize_inSync.
Qed.

End Renderers.

(** X14: Whatever the user does with the modal, the font size stays between 10
    and 24 and every diff shown has the size that [currentFontSize]
    holds. *)
Theorem font_size_in_range_and_shown
    (marked_parse : string -> string) (hljs_highlight : string -> string -> string)
    (m : Modal) :
  Detail.reachable marked_parse hljs_highlight m ->
  10 <= currentFontSize m <= 24
  /\ Forall (fun s => s = Some (currentFontSize m)) (fontSizes m).
Proof.
  intros Hreach.
  destruct (reachable_inSync marked_parse hljs_highlight m Hreach) as [Hrange Hsizes].
  split; [exact Hrange|exact Hsizes].
Qed.

(** The modal after the first record of [loaded] was opened and the font
    enlarged once. *)
Lemma font_size_in_range_and_shown_witness :
  10 <= currentFontSize
          (increaseFontSize
             (updateFontSize
                (mkModal true (Some (Detail.renderBody id tagging january)) 14))) <= 24
  /\ Forall (fun s => s = Some (currentFontSize
                                  (increaseFontSize
                                     (updateFontSize
                                        (mkModal true
                                           (Some (Detail.renderBody id tagging january))
                                           14)))))
            (fontSizes
               (increaseFontSize
                  (updateFontSize
                     (mkModal true (Some (Detail.renderBody id tagging january)) 14)))).
Proof.
  apply (font_size_in_range_and_shown id tagging).
  eapply reach_step; [|apply step_increase].
  eapply reach_step; [apply reach_closed|].
  apply (step_open id tagging 0 [january; march]). reflexivity.
Defined.

(** X15: Enlarging and then reducing the font, or the reverse, gives back the
    modal as it was, unless the first of the two hits a bound; at 24
    enlarging does nothing and at 10 reducing does nothing. *)
Theorem font_size_round_trip
    (marked_parse : string -> string) (hljs_highlight : string -> string -> string)
    (m : Modal) :
  Detail.reachable marked_parse hljs_highlight m ->
  (currentFontSize m < 24 -> decreaseFontSize (increaseFontSize m) = m)
  /\ (10 < currentFontSize m -> increaseFontSize (decreaseFontSize m) = m)
  /\ (currentFontSize m = 24 -> increaseFontSize m = m)
  /\ (currentFontSize m = 10 -> decreaseFontSize m = m).
Proof.
  intros Hm%reachable_inSync. destruct m as [sh b size].
  pose proof Hm as [Hrange _]. cbn [currentFontSize] in *.
  repeat split.
  - intros Hlt. unfold increaseFontSize. cbn [currentFontSize shown body].
    destruct (Z.ltb_spec size 24); [|lia].
    unfold decreaseFontSize.
    change (currentFontSize (updateFontSize (mkModal sh b (size + 1)))) with (size + 1).
    destruct (Z.ltb_spec 10 (size + 1)); [|lia].
    change (shown (updateFontSize (mkModal sh b (size + 1)))) with sh.
    replace (size + 1 - 1) with size by lia.
    apply (updateFontSize_resize sh b size (size + 1) Hm). lia.
  - intros Hgt. unfold decreaseFontSize. cbn [currentFontSize shown body].
    destruct (Z.ltb_spec 10 size); [|lia].
    unfold increaseFontSize.
    change (currentFontSize (updateFontSize (mkModal sh b (size - 1)))) with (size - 1).
    destruct (Z.ltb_spec (size - 1) 24); [|lia].
    change (shown (updateFontSize (mkModal sh b (size - 1)))) with sh.
    replace (size - 1 + 1) with size by lia.
    apply (updateFontSize_resize sh b size (size - 1) Hm). lia.
  - intros ->. reflexivity.
  - intros ->. reflexivity.
Qed.

Lemma font_size_round_trip_witness :
  (currentFontSize closed < 24 -> decreaseFontSize (increaseFontSize closed) = closed)
  /\ (10 < currentFontSize closed -> increaseFontSize (decreaseFontSize closed) = closed)
  /\ (currentFontSize closed = 24 -> increaseFontSize closed = closed)
  /\ (currentFontSize closed = 10 -> decreaseFontSize closed = closed).
Proof. apply (font_size_round_trip id tagging closed). apply reach_closed. Defined.

(** X16: [openPRDetail] opens exactly the positions of the dataset: outside
    them it throws and the modal stays as it was, so with an empty
    dataset no card can be opened; inside, it shows the record at that
    position with the font size back at 14.  The test results are shown
    only for a record that has test files and a truthy [FAIL_TO_PASS]. *)
Theorem openPRDetail_positions
    (marked_parse : string -> string) (hljs_highlight : string -> string -> string)
    (index : Z) (prs : list PR) (m : Modal) :
  (Detail.openPRDetail marked_parse hljs_highlight index prs m = None
   <-> index < 0 \/ Z.of_nat (length prs) <= index)
  /\ (forall pr,
        0 <= index -> prs !! Z.to_nat index = Some pr ->
        exists m',
          Detail.openPRDetail marked_parse hljs_highlight index prs m = Some m'
          /\ shown m' = true
          /\ currentFontSize m' = 14
          /\ (exists b,
                body m' = Some b
                /\ modalTitle b = "PR #" ++ numberOrNA pr ++ " - " ++ orString (repo pr) "Unknown"
                /\ filesTile b = fileCount pr
                /\ changesTile b = changeCount pr
                /\ additionsTile b = additionCount pr
                /\ deletionsTile b = deletionCount pr
                /\ (testResults b <> None ->
                    truthy (FAIL_TO_PASS pr) = true
                    /\ exists file files, test_patch pr = Some (file :: files))))
  /\ Detail.openPRDetail marked_parse hljs_highlight index [] m = None.
Proof.
  split; [|split].
  - unfold Detail.openPRDetail, at_. destruct (Z.ltb_spec index 0) as [Hneg|Hpos].
    + split; [by left|done].
    + destruct (prs !! Z.to_nat index) as [pr|] eqn:E.
      * split; [done|]. intros [?|Hge]; [lia|].
        apply lookup_lt_Some in E. lia.
      * split; [|done]. intros _. right. apply lookup_ge_None in E. lia.
  - intros pr Hpos Hpr. unfold Detail.openPRDetail, at_.
    destruct (Z.ltb_spec index 0); [lia|]. rewrite Hpr.
    eexists. split; [reflexivity|]. split; [done|]. split; [done|].
    cbn [updateFontSize body shown currentFontSize fmap option_fmap option_map].
    eexists. split; [reflexivity|].
    cbn [modalTitle filesTile changesTile additionsTile deletionsTile testResults
         Detail.renderBody].
    repeat split.
    + destruct (test_patch pr) as [[|? ?]|]; try done.
      by destruct (truthy (FAIL_TO_PASS pr)).
    + destruct (test_patch pr) as [[|file files]|]; try done. by exists file, files.
  - unfold Detail.openPRDetail, at_. by destruct (index <? 0).
Qed.

End ModalFacts.

(** ** The cards of the list *)

Module CardFacts.

Import Js JsMore Text UtilsFacts Dashboard DashboardFacts ArrFacts StoreFacts ViewFacts.
Import Detail Cards FormatterFacts Sample.

Lemma split_pieces_no_sep sep s :
  Forall (fun piece => mentions sep piece = false) (split sep s).
Proof.
  induction s as [|c s IH]; cbn [split].
  - by repeat constructor.
  - destruct (Ascii.eqb c sep) eqn:E.
    + by constructor.
    + destruct (split sep s) as [|p r]; inversion IH; subst; constructor;
        cbn [mentions]; try done; by rewrite E.
Qed.

Lemma last_Forall {A} (P : A -> Prop) (l : list A) d :
  l <> [] -> Forall P l -> P (List.last l d).
Proof.
  induction l as [|x [|y l] IH]; intros Hne H; [done| |].
  - by inversion H.
  - inversion H; subst. apply IH; done.
Qed.

(** The last piece has no separator in it and ends the text. *)
Lemma lastPiece_no_sep_in sep s : mentions sep (lastPiece sep s) = false.
Proof.
  unfold lastPiece.
  apply (last_Forall (fun piece => mentions sep piece = false)).
  - apply split_nonempty.
  - apply split_pieces_no_sep.
Qed.

Lemma split_single sep s p : split sep s = [p] -> s = p.
Proof.
  revert p. induction s as [|d s IH]; intros p Hs.
  - by inversion Hs.
  - cbn [split] in Hs. destruct (Ascii.eqb d sep).
    + inversion Hs as [[Hp Hr]]. by apply split_nonempty in Hr.
    + destruct (split sep s) as [|q r] eqn:E; [by apply split_nonempty in E|].
      inversion Hs; subst. by rewrite (IH q eq_refl).
Qed.

Lemma lastPiece_suffix sep s : exists dir, s = dir ++ lastPiece sep s.
Proof.
  induction s as [|c s [dir IH]].
  - by exists EmptyString.
  - destruct (mentions sep (String c s)) eqn:Hm.
    + cbn [mentions] in Hm. destruct (Ascii.eqb c sep) eqn:E.
      * apply Ascii.eqb_eq in E as ->.
        exists (String sep dir).
        change (String sep s) with (EmptyString ++ String sep s) at 2.
        rewrite lastPiece_app.
        change (String sep dir ++ lastPiece sep s)
          with (String sep (dir ++ lastPiece sep s)). by rewrite <- IH.
      * cbn [orb] in Hm. exists (String c dir).
        assert (Hlast : lastPiece sep (String c s) = lastPiece sep s).
        { unfold lastPiece. rewrite split_cons by done.
          apply last_headCons.
          destruct (split sep s) as [|p [|q r]] eqn:Hs; simpl; try lia.
          - by apply split_nonempty in Hs.
          - pose proof (split_pieces_no_sep sep s) as Hall.
            rewrite Hs in Hall. apply split_single in Hs as ->.
            inversion Hall; subst. congruence. }
        rewrite Hlast. change (String c dir ++ lastPiece sep s)
          with (String c (dir ++ lastPiece sep s)). by rewrite <- IH.
    + exists EmptyString. by rewrite lastPiece_no_sep.
Qed.

(** X17: The file tags of a card: at most three, the file names without their
    directories; the [more] tag appears exactly when the record has more
    than three files, and counts the files that are not listed. *)
Theorem card_file_tags (prs : list PR) (pr : PR) :
  let c := card prs pr in
  Z.of_nat (length (mainFiles c)) = Z.min 3 (cardFileCount c)
  /\ (moreFiles c = EmptyString <-> cardFileCount c <= 3)
  /\ (3 < cardFileCount c ->
      moreFiles c
      = " +" ++ numberToString (cardFileCount c - Z.of_nat (length (mainFiles c)))
             ++ " more")
  /\ Forall (fun name => mentions "/" name = false) (mainFiles c)
  /\ (forall i name,
        mainFiles c !! i = Some name ->
        exists files file dir,
          patch pr = Some files /\ files !! i = Some file
          /\ FileChange.filename file = dir ++ name).
Proof.
  cbn zeta.
  assert (Hlen : Z.of_nat (length (mainFiles (card prs pr))) = Z.min 3 (cardFileCount (card prs pr))).
  { cbn [card mainFiles cardFileCount]. unfold fileCount.
    destruct (patch pr) as [files|]; [|done].
    rewrite length_map, length_take. lia. }
  split; [exact Hlen|]. split; [|split; [|split]].
  - cbn [card moreFiles cardFileCount].
    destruct (Z.ltb_spec 3 (fileCount pr)); split; try done; lia.
  - intros Hmore. rewrite Hlen. cbn [card moreFiles cardFileCount] in *.
    destruct (Z.ltb_spec 3 (fileCount pr)); [|lia].
    by replace (Z.min 3 (fileCount pr)) with 3 by lia.
  - cbn [card mainFiles]. destruct (patch pr) as [files|]; [|constructor].
    apply Forall_forall. intros name Hin.
    apply list_elem_of_fmap in Hin as (file & -> & _). apply lastPiece_no_sep_in.
  - intros i name Hname. cbn [card mainFiles] in Hname.
    destruct (patch pr) as [files|]; [|done].
    apply list_lookup_fmap_Some in Hname as (file & -> & Hfile).
    apply lookup_take_Some in Hfile as [Hfile _].
    destruct (lastPiece_suffix "/" (FileChange.filename file)) as [dir Hdir].
    by exists files, file, dir.
Qed.

Lemma findIndex_first `{EqDecision A} (x : A) (xs : list A) :
  x ∈ xs ->
  exists i : nat,
    findIndex (fun item => bool_decide (item = x)) xs = Z.of_nat i
    /\ xs !! i = Some x.
Proof.
  induction xs as [|y xs IH]; intros Hin; [by apply elem_of_nil in Hin|].
  cbn [findIndex]. destruct (decide (y = x)) as [->|Hne].
  - rewrite bool_decide_eq_true_2 by done. by exists 0%nat.
  - rewrite bool_decide_eq_false_2 by done.
    apply elem_of_cons in Hin as [->|Hin]; [done|].
    destruct (IH Hin) as (i & -> & Hi).
    exists (S i). split; [|done].
    destruct (Z.eqb_spec (Z.of_nat i) (-1)); lia.
Qed.

(** X18: The position a card carries is that of its record: clicking the card
    opens the detail of the record the card was made from.  (For a
    dataset without two records equal in every field, where comparing
    records and comparing references agree.) *)
Theorem card_opens_its_record
    (Date_parse : string -> option Z) (Date_setHours : Z -> Z -> Z -> Z -> Z -> Z)
    (marked_parse : string -> string) (hljs_highlight : string -> string -> string)
    (w : World) (i : nat) (pr : PR) (m : Modal) :
  Dashboard.reachable Date_parse Date_setHours w ->
  NoDup (getPrData (store w)) ->
  getFilteredPrData (store (generatePRList Date_parse w)) !! i = Some pr ->
  exists c,
    cards Date_parse w !! i = Some c
    /\ c = card (getPrData (store w)) pr
    /\ 0 <= originalIndex c
    /\ getPrData (store w) !! Z.to_nat (originalIndex c) = Some pr
    /\ (forall j, getPrData (store w) !! j = Some pr -> Z.of_nat j = originalIndex c)
    /\ openPRDetail marked_parse hljs_highlight (originalIndex c)
         (getPrData (store (generatePRList Date_parse w))) m
       = Some (updateFontSize
                 (mkModal true (Some (renderBody marked_parse hljs_highlight pr)) 14)).
Proof.
  intros Hreach Hnodup Hview.
  pose proof (reachable_separate _ _ _ Hreach) as Hsep.
  rewrite generatePRList_filteredPrData in Hview by done.
  rewrite generatePRList_prData by done.
  exists (card (getPrData (store w)) pr).
  assert (Hin : pr ∈ getPrData (store w)).
  { apply (elem_of_submseteq (getFilteredPrData (store w)));
      [|by apply (reachable_view_submseteq Date_parse Date_setHours)].
    rewrite <- (sort_Permutation (byCreatedAtDesc Date_parse)).
    by apply list_elem_of_lookup_2 in Hview. }
  destruct (findIndex_first pr (getPrData (store w)) Hin) as (k & Hk & Hlook).
  split; [|split; [done|]].
  { unfold cards. by rewrite list_lookup_fmap, Hview. }
  cbn [card originalIndex]. rewrite Hk, Nat2Z.id.
  split; [lia|]. split; [done|]. split.
  - intros j Hj. f_equal. by apply (NoDup_lookup _ _ _ _ Hnodup Hj Hlook).
  - unfold openPRDetail, at_. destruct (Z.ltb_spec (Z.of_nat k) 0); [lia|].
    by rewrite Nat2Z.id, Hlook.
Qed.

Lemma card_opens_its_record_witness :
  exists c,
    cards utcParse loaded !! 0%nat = Some c
    /\ c = card (getPrData (store loaded)) march
    /\ 0 <= originalIndex c
    /\ getPrData (store loaded) !! Z.to_nat (originalIndex c) = Some march
    /\ (forall j, getPrData (store loaded) !! j = Some march -> Z.of_nat j = originalIndex c)
    /\ openPRDetail id tagging (originalIndex c)
         (getPrData (store (generatePRList utcParse loaded))) closed
       = Some (updateFontSize (mkModal true (Some (renderBody id tagging march)) 14)).
Proof.
  apply (card_opens_its_record utcParse utcSetHours id tagging loaded 0 march closed).
  - apply reach_loadFiles, reach_initial.
  - change (NoDup [january; march]).
    apply NoDup_cons. split; [|apply NoDup_singleton].
    intros H. apply list_elem_of_singleton in H. discriminate H.
  - reflexivity.
Defined.

End CardFacts.

(** ** The repository check boxes *)

Module RepoFilterFacts.

Import Js JsMore Letters Dashboard ArrFacts FilterFacts RepoFilter Sample.

Lemma distinct_from `{EqDecision A} (xs seen : list A) :
  NoDup seen ->
  let result :=
    fold_left (fun (seen : list A) x => if decide (x ∈ seen) then seen else (seen ++ [x])%list)
              xs seen in
  NoDup result /\ forall x, x ∈ result <-> x ∈ seen \/ x ∈ xs.
Proof.
  revert seen. induction xs as [|y xs IH]; intros seen Hseen; cbn [fold_left].
  - split; [done|]. intros x. split; [by left|]. intros [?|H]; [done|].
    by apply elem_of_nil in H.
  - destruct (decide (y ∈ seen)) as [Hy|Hy].
    + destruct (IH seen Hseen) as [Hnd Hin]. split; [done|].
      intros x. rewrite Hin, elem_of_cons. split; [tauto|].
      intros [?|[->|?]]; tauto.
    + destruct (IH (seen ++ [y])%list) as [Hnd Hin].
      { apply NoDup_app. split; [done|]. split; [|apply NoDup_singleton].
        intros x Hx Hx'. apply list_elem_of_singleton in Hx' as ->. done. }
      split; [done|]. intros x.
      rewrite Hin, elem_of_app, list_elem_of_singleton, elem_of_cons. tauto.
Qed.

Lemma distinct_spec `{EqDecision A} (xs : list A) :
  NoDup (distinct xs) /\ forall x, x ∈ distinct xs <-> x ∈ xs.
Proof.
  destruct (distinct_from xs [] (NoDup_nil_2)) as [Hnd Hin]. split; [exact Hnd|].
  intros x. unfold distinct. rewrite Hin. split; [|by right].
  intros [H|H]; [by apply elem_of_nil in H|done].
Qed.

Lemma sortCompare_strings a b :
  (Arr.sortCompare compareStrings a b <= 0 -> String.le a b)
  /\ (0 < Arr.sortCompare compareStrings a b -> String.le b a).
Proof.
  unfold Arr.sortCompare, compareStrings, String.le, String.leb. cbn [default].
  rewrite (String.compare_antisym b a).
  destruct (String.compare a b); cbn; split; intros; try done; lia.
Qed.

Lemma sort_strings_sorted (l : list string) :
  StronglySorted String.le (Arr.sort compareStrings l).
Proof.
  apply (sort_StronglySorted compareStrings (fun _ => True) String.le).
  - intros x y z _ _ _ Hxy Hyz. by etrans.
  - intros x y _ _. apply sortCompare_strings.
  - intros x y _ _. apply sortCompare_strings.
  - by apply Forall_true.
Qed.

(** X19: For a dataset whose repository names are ASCII text, the check
    boxes are made from those names: every non-empty [repo], once, in
    ascending order.  A box is labelled with the name and carries as its
    value the name in small letters: ASCII text without a capital letter
    that equals the name up to the case of its letters.  Checking a box
    alone keeps exactly the records whose [repo] equals its value up to
    case, so every record with a [repo] can be selected. *)
Theorem populateRepoFilter_boxes (prs : list PR) :
  Forall (fun pr => isAsciiOpt (repo pr) = true) prs ->
  exists names,
    populateRepoFilter prs
    = map (fun name => {| value := toLowerCase name; label := " " ++ name |}) names
    /\ NoDup names
    /\ StronglySorted String.le names
    /\ (forall name,
          name ∈ names
          <-> name <> EmptyString /\ exists pr, pr ∈ prs /\ repo pr = Some name)
    /\ Forall2 (fun box name =>
                  label box = " " ++ name
                  /\ isAscii (value box) = true
                  /\ hasUpper (value box) = false
                  /\ sameUpToCase name (value box) = true)
               (populateRepoFilter prs) names
    /\ (forall box pr name,
          box ∈ populateRepoFilter prs -> repo pr = Some name -> isAscii name = true ->
          (matchesRepo [value box] pr = true
           <-> sameUpToCase name (value box) = true))
    /\ (forall pr name,
          pr ∈ prs -> repo pr = Some name -> name <> EmptyString ->
          exists box,
            box ∈ populateRepoFilter prs
            /\ label box = " " ++ name
            /\ matchesRepo [value box] pr = true).
Proof.
  intros Hascii.
  set (repos := distinct (omap (fun pr => if truthy (repo pr) then repo pr else None) prs)).
  exists (Arr.sort compareStrings repos).
  destruct (distinct_spec (omap (fun pr => if truthy (repo pr) then repo pr else None) prs))
    as [Hnd Hin]. fold repos in Hnd, Hin.
  assert (Hnames : forall name,
            name ∈ Arr.sort compareStrings repos
            <-> name <> EmptyString /\ exists pr, pr ∈ prs /\ repo pr = Some name).
  { intros name. rewrite sort_Permutation, Hin, list_elem_of_omap. split.
    - intros (pr & Hpr & Hname). destruct (repo pr) as [r|] eqn:Hr; [|done].
      cbn [truthy] in Hname. destruct (String.eqb_spec r EmptyString); [done|].
      cbn [negb] in Hname. injection Hname as ->. split; [done|]. by exists pr.
    - intros (Hne & pr & Hpr & Hr). exists pr. split; [done|]. rewrite Hr.
      cbn [truthy]. by destruct (String.eqb_spec name EmptyString). }
  assert (Hmatch : forall v pr name, repo pr = Some name ->
            (matchesRepo [v] pr = true <-> toLowerCase name = v)).
  { intros v pr name Hr. rewrite matchesRepo_iff by done. split.
    - intros (n & Hn & Hv). rewrite Hr in Hn. injection Hn as <-.
      by apply list_elem_of_singleton in Hv.
    - intros <-. exists name. split; [done|]. by constructor. }
  split; [reflexivity|]. split; [by rewrite sort_Permutation|].
  split; [apply sort_strings_sorted|]. split; [exact Hnames|].
  split; [|split].
  - unfold populateRepoFilter. fold repos. apply Forall2_fmap_l, Forall_Forall2_diag.
    apply Forall_forall. intros name (_ & pr & Hpr & Hr)%Hnames. cbn [value label].
    split; [done|]. split; [|split].
    + apply toLowerCase_isAscii.
      rewrite Forall_forall in Hascii. specialize (Hascii pr Hpr).
      by rewrite Hr in Hascii.
    + apply toLowerCase_hasUpper.
    + apply sameUpToCase_toLowerCase.
  - intros box pr name Hbox Hr _. rewrite (Hmatch _ pr name Hr).
    unfold populateRepoFilter in Hbox. fold repos in Hbox.
    apply list_elem_of_fmap in Hbox as (name0 & -> & _). cbn [value].
    rewrite <- toLowerCase_sameUpToCase.
    by rewrite (toLowerCase_fixed _ (toLowerCase_hasUpper name0)).
  - intros pr name Hpr Hr Hne.
    exists {| value := toLowerCase name; label := " " ++ name |}.
    split; [|split; [done|by apply (Hmatch _ pr name)]].
    unfold populateRepoFilter. fold repos. apply list_elem_of_fmap.
    exists name. split; [done|]. apply Hnames. split; [done|]. by exists pr.
Qed.

Lemma populateRepoFilter_boxes_witness :
  exists names,
    populateRepoFilter [january; cased; bare; march]
    = map (fun name => {| value := toLowerCase name; label := " " ++ name |}) names
    /\ NoDup names
    /\ StronglySorted String.le names
    /\ (forall name,
          name ∈ names
          <-> name <> EmptyString
              /\ exists pr, pr ∈ [january; cased; bare; march] /\ repo pr = Some name)
    /\ Forall2 (fun box name =>
                  label box = " " ++ name
                  /\ isAscii (value box) = true
                  /\ hasUpper (value box) = false
                  /\ sameUpToCase name (value box) = true)
               (populateRepoFilter [january; cased; bare; march]) names
    /\ (forall box pr name,
          box ∈ populateRepoFilter [january; cased; bare; march] ->
          repo pr = Some name -> isAscii name = true ->
          (matchesRepo [value box] pr = true
           <-> sameUpToCase name (value box) = true))
    /\ (forall pr name,
          pr ∈ [january; cased; bare; march] -> repo pr = Some name ->
          name <> EmptyString ->
          exists box,
            box ∈ populateRepoFilter [january; cased; bare; march]
            /\ label box = " " ++ name
            /\ matchesRepo [value box] pr = true).
Proof.
  apply (populateRepoFilter_boxes [january; cased; bare; march]).
  repeat constructor.
Defined.

(** The boxes of that dataset: the capital [O] sorts before the small
    [a], and the value of the box of [Org/App] is in small letters. *)
Example populateRepoFilter_cased :
  populateRepoFilter [january; cased; bare; march]
  = [ {| value := "org/app"; label := " Org/App" |};
      {| value := "a/b"; label := " a/b" |} ].
Proof. vm_compute. reflexivity. Qed.

End RepoFilterFacts.

(** ** The monthly timeline *)

Module TimelineFacts.

Import Js JsMore Dashboard ArrFacts BucketFacts RepoFilterFacts Timeline Sample.

Lemma get_increment_any k k' d :
  Arr.get k (increment k' d)
  = if String.eqb k' k then Some (orZero (Arr.get k d) + 1) else Arr.get k d.
Proof.
  unfold increment. destruct (String.eqb_spec k' k) as [->|Hne].
  - generalize (orZero (Arr.get k d) + 1). intros v.
    induction d as [|[k0 v0] r IH]; simpl.
    + by rewrite String.eqb_refl.
    + destruct (String.eqb k0 k) eqn:E; simpl; by rewrite E.
  - by apply get_set_ne.
Qed.

Lemma increment_total_any k d : Arr.total (increment k d) = Arr.total d + 1.
Proof.
  unfold increment, orZero, Arr.total, Arr.values.
  induction d as [|[k0 v0] r IH]; simpl.
  - lia.
  - destruct (String.eqb k0 k); simpl; [lia|]. unfold fmap in IH. lia.
Qed.

Lemma increment_keys_any k d :
  (increment k d).*1 = if decide (k ∈ d.*1) then d.*1 else (d.*1 ++ [k])%list.
Proof.
  unfold increment. generalize (orZero (Arr.get k d) + 1). intros v.
  induction d as [|[k0 v0] r IH].
  - cbn [Arr.set fmap list_fmap fst].
    destruct (decide (k ∈ [])) as [H|_]; [by apply elem_of_nil in H|done].
  - cbn [Arr.set]. change (((k0, v0) :: r).*1) with (k0 :: r.*1).
    destruct (String.eqb_spec k0 k) as [->|Hne].
    + change (((k, v) :: r).*1) with (k :: r.*1).
      destruct (decide (k ∈ k :: r.*1)) as [_|Hout]; [done|].
      exfalso. apply Hout. by constructor.
    + change (((k0, v0) :: Arr.set k v r).*1) with (k0 :: (Arr.set k v r).*1).
      rewrite IH.
      destruct (decide (k ∈ r.*1)) as [Hin|Hout],
               (decide (k ∈ k0 :: r.*1)) as [Hin'|Hout']; try done.
      * exfalso. apply Hout'. by constructor.
      * apply elem_of_cons in Hin' as [?|?]; congruence.
Qed.

Lemma increment_keys_NoDup k d : NoDup d.*1 -> NoDup (increment k d).*1.
Proof.
  intros H. rewrite increment_keys_any. destruct (decide _) as [|Hout]; [done|].
  apply NoDup_app. split; [done|]. split; [|apply NoDup_singleton].
  intros x Hx Hx'. apply list_elem_of_singleton in Hx' as ->. done.
Qed.

Section Dates.

Variable Date_parse : string -> option Z.
Variable Date_getFullYear : Z -> Z.
Variable Date_getMonth : Z -> Z.

Abbreviation monthKey := (Timeline.monthKey Date_parse Date_getFullYear Date_getMonth).
Abbreviation timeline := (Timeline.timeline Date_parse Date_getFullYear Date_getMonth).
Abbreviation sortedTimeline :=
  (Timeline.sortedTimeline Date_parse Date_getFullYear Date_getMonth).

(** The loop of [createTimelineChart], from any object. *)
Lemma timeline_loop (prs : list PR) (d : list (string * Z)) :
  let result :=
    fold_left
      (fun timeline pr =>
         if truthy (created_at pr)
         then increment (monthKey (created_at pr)) timeline
         else timeline)
      prs d in
  Arr.total result = Arr.total d + count (fun pr => truthy (created_at pr)) prs
  /\ (forall k,
        orZero (Arr.get k result)
        = orZero (Arr.get k d)
          + count (fun pr => truthy (created_at pr)
                             && String.eqb (monthKey (created_at pr)) k) prs)
  /\ (NoDup d.*1 -> NoDup result.*1).
Proof.
  unfold count. revert d. induction prs as [|pr prs IH]; intros d; cbn [fold_left].
  - cbn. repeat split; try lia. done.
  - cbn zeta in IH. cbn [List.filter].
    destruct (truthy (created_at pr)) eqn:Ht; cbn [andb].
    + destruct (IH (increment (monthKey (created_at pr)) d)) as (T & G & N).
      rewrite T, increment_total_any. split; [cbn [length]; lia|]. split.
      * intros k. rewrite G, get_increment_any.
        destruct (String.eqb (monthKey (created_at pr)) k); [|done].
        change (orZero (Some (orZero (Arr.get k d) + 1))) with (orZero (Arr.get k d) + 1).
        cbn [length]. lia.
      * intros Hd. by apply N, increment_keys_NoDup.
    + destruct (IH d) as (T & G & N). repeat split; auto.
Qed.

End Dates.

(** X20: The timeline counts the records that have a non-empty [created_at],
    each under the key of its month, one entry per key; a [created_at]
    that does not parse is counted too, under the key [NaN-NaN].  The
    chart shows the entries ordered by their [key,count] strings. *)
Theorem timeline_counts_dated_records
    (Date_parse : string -> option Z) (Date_getFullYear Date_getMonth : Z -> Z)
    (prs : list PR) :
  let monthKey := Timeline.monthKey Date_parse Date_getFullYear Date_getMonth in
  let timeline := Timeline.timeline Date_parse Date_getFullYear Date_getMonth prs in
  let sorted := Timeline.sortedTimeline Date_parse Date_getFullYear Date_getMonth prs in
  Arr.total timeline = count (fun pr => truthy (created_at pr)) prs
  /\ (forall k,
        orZero (Arr.get k timeline)
        = count (fun pr => truthy (created_at pr)
                           && String.eqb (monthKey (created_at pr)) k) prs)
  /\ NoDup timeline.*1
  /\ (forall pr,
        truthy (created_at pr) = true ->
        newDate Date_parse (created_at pr) = None ->
        monthKey (created_at pr) = "NaN-NaN")
  /\ sorted ≡ₚ timeline
  /\ StronglySorted (fun a b => String.le (entryString a) (entryString b)) sorted.
Proof.
  cbn zeta.
  destruct (timeline_loop Date_parse Date_getFullYear Date_getMonth prs [])
    as (T & G & N).
  split; [exact T|]. split; [exact G|]. split; [apply N; constructor|].
  split; [|split].
  - intros pr _ Hdate. unfold Timeline.monthKey. rewrite Hdate. reflexivity.
  - apply sort_Permutation.
  - apply (sort_StronglySorted _ (fun _ => True)
             (fun a b => String.le (entryString a) (entryString b))).
    + intros x y z _ _ _ Hxy Hyz. by etrans.
    + intros x y _ _. apply (sortCompare_strings (entryString x) (entryString y)).
    + intros x y _ _. apply (sortCompare_strings (entryString x) (entryString y)).
    + by apply Forall_true.
Qed.

End TimelineFacts.

(** ** Rendering the list again *)

Module RenderFacts.

Import Js JsMore Dashboard DashboardFacts ArrFacts Sample.

Lemma sort_fixed {A} (comparefn : A -> A -> option Z) (l : list A) :
  StronglySorted (fun a b => Arr.sortCompare comparefn a b <= 0) l ->
  Arr.sort comparefn l = l.
Proof.
  induction 1 as [|x l Hl IH Hx]; [done|].
  cbn [Arr.sort foldr]. change (foldr (Arr.insert comparefn) [] l) with (Arr.sort comparefn l).
  rewrite IH. destruct l as [|y r]; [done|]. cbn [Arr.insert].
  apply Forall_cons in Hx as [Hxy _].
  by destruct (Z.leb_spec (Arr.sortCompare comparefn x y) 0); [|lia].
Qed.

Lemma descending_sortCompare Date_parse a b :
  descending Date_parse a b -> Arr.sortCompare (byCreatedAtDesc Date_parse) a b <= 0.
Proof.
  intros (x & y & Ha & Hb & Hle).
  unfold Arr.sortCompare, byCreatedAtDesc. rewrite Ha, Hb. cbn. lia.
Qed.

Lemma sort_sort_valid Date_parse (prs : list PR) :
  Forall (validDate Date_parse) prs ->
  Arr.sort (byCreatedAtDesc Date_parse) (Arr.sort (byCreatedAtDesc Date_parse) prs)
  = Arr.sort (byCreatedAtDesc Date_parse) prs.
Proof.
  intros Hvalid. apply sort_fixed.
  pose proof (sort_descending Date_parse prs Hvalid) as Hsorted.
  induction Hsorted as [|x l Hl IH Hx]; constructor; [done|].
  eapply Forall_impl; [exact Hx|]. intros y. apply descending_sortCompare.
Qed.

(** X21: When every record of the view has a date that parses, rendering the
    list a second time changes nothing: neither the order of the stored
    view nor the page. *)
Theorem generatePRList_twice
    (Date_parse : string -> option Z) (Date_setHours : Z -> Z -> Z -> Z -> Z -> Z)
    (w : World) :
  reachable Date_parse Date_setHours w ->
  Forall (validDate Date_parse) (getFilteredPrData (store w)) ->
  generatePRList Date_parse (generatePRList Date_parse w) = generatePRList Date_parse w.
Proof.
  intros Hreach Hvalid.
  pose proof (reachable_separate _ _ _ Hreach) as Hsep.
  pose proof (generatePRList_filteredPrData Date_parse w Hsep) as Hview.
  unfold getFilteredPrData in Hview.
  destruct (generatePRList_refs Date_parse w) as (_ & Hf & _).
  rewrite Hf in Hview.
  unfold generatePRList at 1. rewrite Hf, Hview.
  fold (getFilteredPrData (store w)). rewrite sort_sort_valid by done.
  unfold generatePRList. cbn [store page]. unfold write, withPrList. cbn.
  by rewrite list_insert_insert_eq.
Qed.

Lemma generatePRList_twice_witness :
  generatePRList utcParse (generatePRList utcParse loaded) = generatePRList utcParse loaded.
Proof.
  apply (generatePRList_twice utcParse utcSetHours loaded).
  - apply reach_loadFiles, reach_initial.
  - change (Forall (validDate utcParse) [march; january]).
    repeat constructor; by eexists.
Defined.

End RenderFacts.
